(** * uniqush-push: the push processor (pushprocessor.go)

    A shallow embedding of [PushProcessor] and of the functions that drive
    one push request: [Process], [push], [pushBulk], [pushToDeliveryPoint],
    [refreshData], [retryRequest], [unsubscribe], [pushSucc], [pushFail],
    [pushRetry] and [recycle].

    The collaborators of the processor (storage, push backend, clock) are
    external: they are interfaces whose calls thread an abstract world [W].
    Every call that leaves the processor (a storage or backend call, a log
    line, [Respond], [Finish], [Recycle], a send on the hand-off channel, a
    [go] statement, the wait-group operations) is recorded in a trace, so
    that counting and ordering properties can be stated on the trace. *)

From Stdlib Require Import ZArith List String Bool Lia.
Import ListNotations.
Local Open Scope string_scope.
Local Open Scope list_scope.
Local Open Scope Z_scope.
Set Warnings "-register-all".

(** ** Data model *)

(** [*PushServiceProvider] and [*DeliveryPoint] come from the pushsys
    package; the processor only calls their [Name], [PushServiceName] and
    [String] methods, kept here as fields. *)
Record PushServiceProvider : Type := mkPSP {
  psp_Name : string;
  psp_PushServiceName : string;
  psp_String : string }.

Record DeliveryPoint : Type := mkDP {
  dp_Name : string;
  dp_String : string }.

Record Notification : Type := mkNotification {
  Data : list (string * string) }.

Record PushServiceProviderDeliveryPointPair : Type := mkPair {
  pair_PushServiceProvider : PushServiceProvider;
  pair_DeliveryPoint : DeliveryPoint }.

(** The dynamic types of the [error] values the processor switches on
    (pushsys), and the error built by [fmt.Errorf]. *)
Inductive error : Type :=
| RefreshDataError (re_PushServiceProvider : option PushServiceProvider)
                   (re_DeliveryPoint : option DeliveryPoint)
                   (re_OtherError : option error)
| RetryError (RetryAfter : Z)
| UnregisteredError
| errorString (msg : string).

Inductive action : Type :=
| ACTION_PUSH
| ACTION_SUBSCRIBE
| ACTION_UNSUBSCRIBE
| ACTION_OTHER (code : nat).

(** [Request]; [nrRetries] is an [int], [backoffTime] an [int64]. A field
    that holds a Go pointer which may be nil is an [option]. *)
Inductive Request : Type := mkRequest {
  ID : string;
  Action : action;
  Service : string;
  RequestSenderAddr : string;
  Subscribers : list string;
  req_PushServiceProvider : option PushServiceProvider;
  req_DeliveryPoint : option DeliveryPoint;
  req_Notification : option Notification;
  nrRetries : Z;
  backoffTime : Z;
  PreviousTry : option Request;
  Timestamp : Z }.

(** ** Traces *)

Inductive level : Type := Debug | Info | Warn | Error.

Inductive logarg : Type :=
| ArgS (s : string)
| ArgE (e : error).

(** The function started by a [go] statement, with the arguments that
    identify the work it was given. *)
Inductive goroutine : Type :=
| go_push (subscriber : string)
| go_pushBulk (subscribers : list string)
| go_retryRequest (req : Request) (retryAfter : Z) (subscriber : string)
                  (psp : PushServiceProvider) (dp : DeliveryPoint).

Inductive event : Type :=
| EvGetPairs (service subscriber : string)
| EvModifyPSP (psp : PushServiceProvider)
| EvModifyDP (dp : DeliveryPoint)
| EvPush (psp : PushServiceProvider) (dp : DeliveryPoint)
         (n : option Notification)
| EvLog (lvl : level) (format : string) (args : list logarg)
| EvRespond (e : error)
| EvRecycle (n : option Notification)
| EvSleep (nanoseconds : Z)
| EvSend (r : Request)
| EvGo (g : goroutine) (body : list event)
| EvWgAdd
| EvWgDone
| EvWgWait
| EvFinish.

Definition trace : Type := list event.

(** All events of a trace, those of the goroutines it started included
    (a started goroutine is listed right after its [EvGo]). *)
Fixpoint flat_event (e : event) : trace :=
  match e with
  | EvGo g body => EvGo g body :: flat_map flat_event body
  | _ => [e]
  end.

Definition flatten (t : trace) : trace := flat_map flat_event t.

Definition is_respond (e : event) : bool :=
  match e with EvRespond _ => true | _ => false end.
Definition is_recycle (e : event) : bool :=
  match e with EvRecycle _ => true | _ => false end.
Definition is_finish (e : event) : bool :=
  match e with EvFinish => true | _ => false end.
Definition is_send (e : event) : bool :=
  match e with EvSend _ => true | _ => false end.
Definition is_push (e : event) : bool :=
  match e with EvPush _ _ _ => true | _ => false end.
Definition is_get_pairs (e : event) : bool :=
  match e with EvGetPairs _ _ => true | _ => false end.
Definition is_persist (e : event) : bool :=
  match e with EvModifyPSP _ | EvModifyDP _ => true | _ => false end.
Definition is_go_retry (e : event) : bool :=
  match e with EvGo (go_retryRequest _ _ _ _ _) _ => true | _ => false end.

(** Number of events of [t], nested ones included, that satisfy [P]. *)
Definition count (P : event -> bool) (t : trace) : nat :=
  List.length (filter P (flatten t)).

(** The requests sent on the hand-off channel, nested sends included. *)
Definition sent (t : trace) : list Request :=
  flat_map (fun e => match e with EvSend r => [r] | _ => [] end) (flatten t).

(** The errors given to [Respond], in order. *)
Definition responses (t : trace) : list error :=
  flat_map (fun e => match e with EvRespond e => [e] | _ => [] end)
           (flatten t).

(** The delivery attempts (backend pushes), in order. *)
Definition attempts (t : trace) : list (PushServiceProvider * DeliveryPoint) :=
  flat_map (fun e => match e with EvPush psp dp _ => [(psp, dp)] | _ => [] end)
           (flatten t).

(** The subscribers handed to [push], in order of the storage lookups. *)
Definition processed (t : trace) : list string :=
  flat_map (fun e => match e with EvGetPairs _ s => [s] | _ => [] end)
           (flatten t).

(** The subscriber slices handed to the [pushBulk] goroutines that [t]
    starts itself, in spawn order. *)
Definition batches (t : trace) : list (list string) :=
  flat_map (fun e => match e with
                     | EvGo (go_pushBulk subs) _ => [subs]
                     | _ => []
                     end) t.

(** No event selected by [act] occurs in [t] before the first [Respond]. *)
Fixpoint respond_first (act : event -> bool) (t : trace) : bool :=
  match t with
  | [] => true
  | e :: t' =>
      if is_respond e then true
      else if act e then false
      else respond_first act t'
  end.

(** ** Machine integers *)

(** Two's complement wrap-around of an [int64] operation. *)
Definition wrap64 (z : Z) : Z := (z + 2 ^ 63) mod 2 ^ 64 - 2 ^ 63.

Definition int64_shl1 (z : Z) : Z := wrap64 (Z.shiftl z 1).
Definition int64_mul (a b : Z) : Z := wrap64 (a * b).

(** ** Collaborators *)

(** The storage interface ([PushDatabase], field [dbfront]) and the push
    backend ([*PushServiceManager], field [psm]). Their methods read and
    change a world [W] that the processor does not see. *)
Record PushDatabase (W : Type) : Type := mkPushDatabase {
  GetPushServiceProviderDeliveryPointPairs :
    string -> string -> W ->
    (list PushServiceProviderDeliveryPointPair * option error) * W;
  ModifyPushServiceProvider : PushServiceProvider -> W -> option error * W;
  ModifyDeliveryPoint : DeliveryPoint -> W -> option error * W }.

Record PushServiceManager (W : Type) : Type := mkPushServiceManager {
  Push : PushServiceProvider -> DeliveryPoint -> option Notification ->
         W -> (string * option error) * W }.

Arguments GetPushServiceProviderDeliveryPointPairs {W}.
Arguments ModifyPushServiceProvider {W}.
Arguments ModifyDeliveryPoint {W}.
Arguments Push {W}.

(** What the Go runtime and the zero values give: the clock read by
    [PunchTimestamp], and the behaviour of a nil [*PushServiceManager]
    (the value of a [psm] field that was never assigned). *)
Class Runtime (W : Type) : Type := {
  time_Now : W -> Z * W;
  nil_PushServiceManager : PushServiceManager W }.

(** [PushProcessor]. The logger and [backendch] are write-only sinks: what
    is written to them is recorded in the trace. *)
Record PushProcessor (W : Type) : Type := mkPushProcessor {
  dbfront : PushDatabase W;
  max_nr_gorountines : Z;
  max_nr_retry : Z;
  psm : PushServiceManager W }.

Arguments dbfront {W}.
Arguments max_nr_gorountines {W}.
Arguments max_nr_retry {W}.
Arguments psm {W}.

Definition init_backoff_time : Z := 3.

(** ** The monad of the processor: world, trace, panics *)

Inductive result (A : Type) : Type :=
| Ok (a : A)
| Panic (msg : string)
| OutOfFuel.

Arguments Ok {A}.
Arguments Panic {A}.
Arguments OutOfFuel {A}.

Definition M (W A : Type) : Type := W -> result A * trace * W.

Definition ret {W A} (a : A) : M W A := fun w => (Ok a, [], w).

Definition bind {W A B} (m : M W A) (f : A -> M W B) : M W B :=
  fun w =>
    match m w with
    | (Ok a, t, w1) => let '(r, t', w2) := f a w1 in (r, t ++ t', w2)
    | (Panic msg, t, w1) => (Panic msg, t, w1)
    | (OutOfFuel, t, w1) => (OutOfFuel, t, w1)
    end.

Notation "x <- m ;; k" := (bind m (fun x => k))
  (at level 61, m at next level, right associativity).
Notation "m ;; k" := (bind m (fun _ => k))
  (at level 61, right associativity).

Definition emit {W} (e : event) : M W unit := fun w => (Ok tt, [e], w).

Definition panic {W A} (msg : string) : M W A := fun w => (Panic msg, [], w).

Definition out_of_fuel {W A} : M W A := fun w => (OutOfFuel, [], w).

(** [defer d] before [body]: [d] runs when [body] is left, also when it
    panics; the result is that of [body]. *)
Definition defer {W A} (d : M W unit) (body : M W A) : M W A :=
  fun w =>
    let '(r, t, w1) := body w in
    let '(_, t', w2) := d w1 in
    (r, t ++ t', w2).

(** [go f(...)]. The model runs the new goroutine to its end at the place
    where it is started and keeps its events apart, inside [EvGo]: the
    properties below count events or order the events of one goroutine,
    and do not depend on how goroutines interleave. *)
Definition go {W} (g : goroutine) (body : M W unit) : M W unit :=
  fun w => let '(_, t, w1) := body w in (Ok tt, [EvGo g t], w1).

Fixpoint for_each {W A} (l : list A) (f : A -> M W unit) : M W unit :=
  match l with
  | [] => ret tt
  | x :: l' => f x ;; for_each l' f
  end.

Definition result_of {W A} (m : M W A) (w : W) : result A := fst (fst (m w)).
Definition trace_of {W A} (m : M W A) (w : W) : trace := snd (fst (m w)).
Definition world_of {W A} (m : M W A) (w : W) : W := snd (m w).

(** Go integer division and remainder (truncated), and slicing of a slice
    whose capacity is its length. *)
Definition int_div {W} (a b : Z) : M W Z :=
  if b =? 0 then panic "integer divide by zero" else ret (Z.quot a b).

Definition int_rem {W} (a b : Z) : M W Z :=
  if b =? 0 then panic "integer divide by zero" else ret (Z.rem a b).

Definition len {A} (l : list A) : Z := Z.of_nat (List.length l).

Definition slice {W A} (l : list A) (lo hi : Z) : M W (list A) :=
  if (0 <=? lo) && (lo <=? hi) && (hi <=? len l)
  then ret (firstn (Z.to_nat (hi - lo)) (skipn (Z.to_nat lo) l))
  else panic "slice bounds out of range".

(** ** The processor *)

Section Processor.

Context {W : Type} `{RT : Runtime W}.

Definition Respond (e : error) : M W unit := emit (EvRespond e).
Definition Finish : M W unit := emit EvFinish.
Definition logf (lvl : level) (format : string) (args : list logarg)
  : M W unit := emit (EvLog lvl format args).
Definition send (r : Request) : M W unit := emit (EvSend r).
Definition time_After (nanoseconds : Z) : M W unit :=
  emit (EvSleep nanoseconds).
Definition now : M W Z := fun w => let '(t, w1) := time_Now w in (Ok t, [], w1).

(** [NewPushProcessor]: the logger and [backendch] are the sinks of the
    trace; the [psm] argument is not stored, the field keeps its zero
    value. *)
Definition NewPushProcessor (db : PushDatabase W)
    (psm_arg : PushServiceManager W) : PushProcessor W :=
  {| dbfront := db;
     max_nr_gorountines := 1024;
     max_nr_retry := 3;
     psm := nil_PushServiceManager |}.

(** The back-off stored in the retry of [req] (lines 65 to 69). *)
Definition next_backoffTime (req : Request) : Z :=
  if (nrRetries req =? 0) || (backoffTime req =? 0)
  then init_backoff_time
  else int64_shl1 (backoffTime req).

(** [waitTime], in seconds (lines 71 to 74). *)
Definition waitTime (newbackoff retryAfter : Z) : Z :=
  if 0 <? retryAfter then retryAfter else newbackoff.

(** [newreq] of [retryRequest], once all its fields are set. The guard of
    [retryRequest] keeps [nrRetries + 1] in the range of [int]. *)
Definition retry_of (req : Request) (subscriber : string)
    (psp : PushServiceProvider) (dp : DeliveryPoint) (ts : Z) : Request :=
  {| ID := ID req;
     Action := ACTION_PUSH;
     Service := Service req;
     RequestSenderAddr := RequestSenderAddr req;
     Subscribers := [subscriber];
     req_PushServiceProvider := Some psp;
     req_DeliveryPoint := Some dp;
     req_Notification := req_Notification req;
     nrRetries := nrRetries req + 1;
     backoffTime := next_backoffTime req;
     PreviousTry := Some req;
     Timestamp := ts |}.

Definition retryRequest (p : PushProcessor W) (req : Request)
    (retryAfter : Z) (subscriber : string)
    (psp : PushServiceProvider) (dp : DeliveryPoint) : M W unit :=
  if max_nr_retry p <=? nrRetries req then ret tt
  else
    ts <- now ;;
    let newreq := retry_of req subscriber psp dp ts in
    let duration := int64_mul (waitTime (backoffTime newreq) retryAfter)
                              1000000000 in
    time_After duration ;;
    send newreq.

(** The request [a] built by [unsubscribe]; the fields it does not set
    keep their zero values. *)
Definition unsubscribe_request (req : Request) (subscriber : string)
    (dp : DeliveryPoint) (ts : Z) : Request :=
  {| ID := ID req;
     Action := ACTION_UNSUBSCRIBE;
     Service := Service req;
     RequestSenderAddr := RequestSenderAddr req;
     Subscribers := [subscriber];
     req_PushServiceProvider := None;
     req_DeliveryPoint := Some dp;
     req_Notification := None;
     nrRetries := 0;
     backoffTime := 0;
     PreviousTry := None;
     Timestamp := ts |}.

Definition unsubscribe (p : PushProcessor W) (req : Request)
    (subscriber : string) (dp : DeliveryPoint) : M W unit :=
  ts <- now ;;
  send (unsubscribe_request req subscriber dp ts).

Definition modifyPushServiceProvider (p : PushProcessor W)
    (psp : PushServiceProvider) : M W unit :=
  fun w => let '(_, w1) := ModifyPushServiceProvider (dbfront p) psp w in
           (Ok tt, [EvModifyPSP psp], w1).

Definition modifyDeliveryPoint (p : PushProcessor W)
    (dp : DeliveryPoint) : M W unit :=
  fun w => let '(_, w1) := ModifyDeliveryPoint (dbfront p) dp w in
           (Ok tt, [EvModifyDP dp], w1).

(** [refreshData] on the fields of a [*RefreshDataError]. *)
Definition refreshData (p : PushProcessor W) (req : Request) (stype : string)
    (re_psp : option PushServiceProvider) (re_dp : option DeliveryPoint)
    (re_other : option error) : M W (option error) :=
  match re_psp with
  | Some x =>
      modifyPushServiceProvider p x ;;
      logf Info "[%s][UpdatePushServiceProvider] Service=%s PushServiceProvider=%s"
           [ArgS stype; ArgS (Service req); ArgS (psp_Name x)]
  | None => ret tt
  end ;;
  match re_dp with
  | Some d =>
      modifyDeliveryPoint p d ;;
      logf Info "[%s][UpdateDeliveryPoint] DeliveryPoint=%s"
           [ArgS stype; ArgS (dp_Name d)]
  | None => ret tt
  end ;;
  ret re_other.

Definition recycle (psp : PushServiceProvider) (dp : DeliveryPoint)
    (n : option Notification) : M W unit := emit (EvRecycle n).

Definition pushFail (p : PushProcessor W) (req : Request)
    (subscriber : string) (psp : PushServiceProvider) (dp : DeliveryPoint)
    (err : error) : M W unit :=
  logf Error "[%s][PushFail] RequestId=%s Service=%s Subscriber=%s PushServiceProvider=%s DeliveryPoint=%s '%v'"
       [ArgS (psp_PushServiceName psp); ArgS (ID req); ArgS (Service req);
        ArgS subscriber; ArgS (psp_Name psp); ArgS (dp_Name dp); ArgE err] ;;
  logf Debug "[%s][PushFailDebug] RequestId=%s Service=%s Subscriber=%s PushServiceProvider='%s' DeliveryPoint='%s' '%v'"
       [ArgS (psp_PushServiceName psp); ArgS (ID req); ArgS (Service req);
        ArgS subscriber; ArgS (psp_String psp); ArgS (dp_String dp);
        ArgE err] ;;
  recycle psp dp (req_Notification req).

Definition pushRetry (p : PushProcessor W) (req : Request)
    (subscriber : string) (psp : PushServiceProvider) (dp : DeliveryPoint)
    (retryAfter : Z) : M W unit :=
  go (go_retryRequest req retryAfter subscriber psp dp)
     (retryRequest p req retryAfter subscriber psp dp) ;;
  logf Warn "[%s][PushRetry] RequestId=%s Service=%s Subscriber=%s PushServiceProvider=%s DeliveryPoint=%s '%v'"
       [ArgS (psp_PushServiceName psp); ArgS (ID req); ArgS (Service req);
        ArgS subscriber; ArgS (psp_Name psp); ArgS (dp_Name dp);
        ArgE (RetryError retryAfter)].

Definition pushSucc (p : PushProcessor W) (req : Request)
    (subscriber : string) (psp : PushServiceProvider) (dp : DeliveryPoint)
    (id : string) : M W unit :=
  logf Info "[%s][PushSuccess] RequestId=%s Service=%s Subscriber=%s PushServiceProvider=%s DeliveryPoint=%s MsgId=%s"
       [ArgS (psp_PushServiceName psp); ArgS (ID req); ArgS (Service req);
        ArgS subscriber; ArgS (psp_Name psp); ArgS (dp_Name dp); ArgS id] ;;
  recycle psp dp (req_Notification req).

Definition psm_Push (p : PushProcessor W) (psp : PushServiceProvider)
    (dp : DeliveryPoint) (n : option Notification)
  : M W (string * option error) :=
  fun w => let '(r, w1) := Push (psm p) psp dp n w in
           (Ok r, [EvPush psp dp n], w1).

(** The error of the [Respond] on the retry path. *)
Definition retry_notice (subscriber : string) (psp : PushServiceProvider)
    (dp : DeliveryPoint) : error :=
  errorString ("PushServiceProvider=" ++ psp_Name psp ++ " Subscriber="
               ++ subscriber ++ " DeliveryPoint=" ++ dp_Name dp
               ++ " Retry")%string.

(** The second type switch of [pushToDeliveryPoint] and what follows it
    (lines 125 to 140). *)
Definition pushToDeliveryPoint_failed (p : PushProcessor W) (req : Request)
    (subscriber : string) (psp : PushServiceProvider) (dp : DeliveryPoint)
    (err : error) : M W unit :=
  match err with
  | RetryError retryAfter =>
      Respond (retry_notice subscriber psp dp) ;;
      pushRetry p req subscriber psp dp retryAfter
  | UnregisteredError =>
      Respond err ;;
      unsubscribe p req subscriber dp
  | _ =>
      Respond err ;;
      pushFail p req subscriber psp dp err
  end.

Definition pushToDeliveryPoint (p : PushProcessor W) (req : Request)
    (subscriber : string) (psp : PushServiceProvider) (dp : DeliveryPoint)
  : M W unit :=
  r <- psm_Push p psp dp (req_Notification req) ;;
  let '(id, err) := r in
  match err with
  | Some (RefreshDataError re_psp re_dp re_other) =>
      err' <- refreshData p req (psp_PushServiceName psp)
                          re_psp re_dp re_other ;;
      match err' with
      | None => pushSucc p req subscriber psp dp id
      | Some e => pushToDeliveryPoint_failed p req subscriber psp dp e
      end
  | Some e => pushToDeliveryPoint_failed p req subscriber psp dp e
  | None => pushSucc p req subscriber psp dp id
  end.

Definition getPairs (p : PushProcessor W) (service subscriber : string)
  : M W (list PushServiceProviderDeliveryPointPair * option error) :=
  fun w =>
    let '(r, w1) :=
      GetPushServiceProviderDeliveryPointPairs (dbfront p) service subscriber w
    in (Ok r, [EvGetPairs service subscriber], w1).

(** The inner loop of [push] over [chked_dps] (lines 171 to 176). *)
Definition pushit (chked_dps : list string) (name : string) : bool :=
  fold_left (fun acc d => if String.eqb d name then false else acc)
            chked_dps true.

(** The loop of [push] over the pairs (lines 168 to 181). *)
Fixpoint push_pairs (p : PushProcessor W) (req : Request)
    (subscriber : string) (pspdppairs : list PushServiceProviderDeliveryPointPair)
    (chked_dps : list string) : M W unit :=
  match pspdppairs with
  | [] => ret tt
  | pdpair :: rest =>
      let psp := pair_PushServiceProvider pdpair in
      let dp := pair_DeliveryPoint pdpair in
      if pushit chked_dps (dp_Name dp) then
        pushToDeliveryPoint p req subscriber psp dp ;;
        push_pairs p req subscriber rest (chked_dps ++ [dp_Name dp])
      else push_pairs p req subscriber rest chked_dps
  end.

(** [push]; [wg] tells whether the wait group is non-nil. *)
Definition push (p : PushProcessor W) (req : Request) (subscriber : string)
    (wg : bool) : M W unit :=
  r <- getPairs p (Service req) subscriber ;;
  let '(pspdppairs, err) := r in
  defer (if wg then emit EvWgDone else ret tt)
    (match err with
     | Some e =>
         logf Error "[PushFail] Service=%s Subscriber=%s DatabaseError %v"
              [ArgS (Service req); ArgS subscriber; ArgE e] ;;
         Respond e
     | None => ret tt
     end ;;
     if len pspdppairs <=? 0 then
       logf Warn "[PushFail] Service=%s Subscriber=%s NoSubscriber"
            [ArgS (Service req); ArgS subscriber] ;;
       Respond (errorString ("Subscriber=" ++ subscriber ++ " NoDevice")%string)
     else push_pairs p req subscriber pspdppairs []).

Definition pushBulk (p : PushProcessor W) (req : Request)
    (subscribers : list string) (wg : bool) : M W unit :=
  for_each subscribers (fun sub => push p req sub false) ;;
  if wg then emit EvWgDone else ret tt.

(** The [for] loop of the batched path (lines 287 to 290); it returns the
    final [pos]. *)
Fixpoint batch_loop (fuel : nat) (p : PushProcessor W) (req : Request)
    (nr_subs_per_goroutine bound pos : Z) : M W Z :=
  match fuel with
  | O => out_of_fuel
  | S fuel' =>
      if pos <? bound then
        emit EvWgAdd ;;
        subs <- slice (Subscribers req) pos (pos + nr_subs_per_goroutine) ;;
        go (go_pushBulk subs) (pushBulk p req subs true) ;;
        batch_loop fuel' p req nr_subs_per_goroutine bound
                   (pos + nr_subs_per_goroutine)
      else ret pos
  end.

Definition Process_batched (p : PushProcessor W) (req : Request) : M W unit :=
  nr_subs_per_goroutine <-
    int_div (len (Subscribers req)) (max_nr_gorountines p) ;;
  nr_subs_last_goroutine <-
    int_rem (len (Subscribers req)) (max_nr_gorountines p) ;;
  pos <- batch_loop (S (List.length (Subscribers req))) p req
           nr_subs_per_goroutine
           (len (Subscribers req) - nr_subs_last_goroutine) 0 ;;
  (if pos <? len (Subscribers req) then
     emit EvWgAdd ;;
     subs <- slice (Subscribers req) pos (len (Subscribers req)) ;;
     go (go_pushBulk subs) (pushBulk p req subs true)
   else ret tt) ;;
  emit EvWgWait.

Definition Process_fanout (p : PushProcessor W) (req : Request) : M W unit :=
  if len (Subscribers req) <=? max_nr_gorountines p then
    for_each (Subscribers req)
             (fun sub => emit EvWgAdd ;;
                         go (go_push sub) (push p req sub true)) ;;
    emit EvWgWait
  else Process_batched p req.

Definition Process (p : PushProcessor W) (req : Request) : M W unit :=
  defer Finish
    (match Subscribers req, req_PushServiceProvider req, req_DeliveryPoint req
     with
     | [subscriber], Some psp, Some dp =>
         pushToDeliveryPoint p req subscriber psp dp
     | _, _, _ => Process_fanout p req
     end).

End Processor.

(** ** Specification-level definitions *)

(** The error that is left of a backend error once a [*RefreshDataError]
    has been unwrapped by [refreshData]: the value of [err] at the second
    type switch of [pushToDeliveryPoint], [None] when nothing is left. *)
Definition remaining_error (e : error) : option error :=
  match e with
  | RefreshDataError _ _ other => other
  | _ => Some e
  end.

(** The error handed to [Respond] for a remaining error [e]. *)
Definition reported (subscriber : string) (psp : PushServiceProvider)
    (dp : DeliveryPoint) (e : error) : error :=
  match e with
  | RetryError _ => retry_notice subscriber psp dp
  | _ => e
  end.

(** Recovery actions, as the specification lists them: persisting refreshed
    credentials, scheduling a retry, enqueuing an unsubscribe request. *)
Definition is_recovery (e : event) : bool :=
  is_persist e || is_go_retry e || is_send e.

(** The recovery actions that follow the report in the code; the release
    of the notification is counted with them. *)
Definition is_late_recovery (e : event) : bool :=
  is_go_retry e || is_send e || is_recycle e.

(** Every event of [t] selected by [act] has a [Respond] before it;
    [respond_first] decides it. *)
Definition reported_before (act : event -> bool) (t : trace) : Prop :=
  forall a x b, t = a ++ x :: b -> act x = true ->
                exists r, In (EvRespond r) a.

(** The events of [t] before its first [Respond], and [t] from its first
    [Respond] on. *)
Fixpoint before_respond (t : trace) : trace :=
  match t with
  | [] => []
  | e :: t' => if is_respond e then [] else e :: before_respond t'
  end.

Fixpoint from_respond (t : trace) : trace :=
  match t with
  | [] => []
  | e :: t' => if is_respond e then t else from_respond t'
  end.

(** The pairs of a resolution that the specification has attempted: a pair
    is skipped when an earlier pair of the list, attempted or not, has the
    same target name. [earlier] holds the names of the pairs already
    passed. *)
Fixpoint skip_repeated (earlier : list string)
    (l : list PushServiceProviderDeliveryPointPair)
  : list PushServiceProviderDeliveryPointPair :=
  match l with
  | [] => []
  | pd :: l' =>
      let name := dp_Name (pair_DeliveryPoint pd) in
      if existsb (String.eqb name) earlier
      then skip_repeated (name :: earlier) l'
      else pd :: skip_repeated (name :: earlier) l'
  end.

Definition pair_tuple (pd : PushServiceProviderDeliveryPointPair)
  : PushServiceProvider * DeliveryPoint :=
  (pair_PushServiceProvider pd, pair_DeliveryPoint pd).

Definition pair_name (pd : PushServiceProviderDeliveryPointPair) : string :=
  dp_Name (pair_DeliveryPoint pd).

Definition target_names (l : list (PushServiceProvider * DeliveryPoint))
  : list string := map (fun a => dp_Name (snd a)) l.

(** [k] consecutive chunks of [size] elements from the front of [l]. *)
Fixpoint chunks {A} (k size : nat) (l : list A) : list (list A) :=
  match k with
  | O => []
  | S k' => firstn size l :: chunks k' size (skipn size l)
  end.

(** The delays, in nanoseconds, of a chain of retries: each retry request
    that [retryRequest] sends fails again with a retryable error that
    carries no retry-after value, for at most [rounds] rounds. *)
Fixpoint retry_delays {W} `{Runtime W} (rounds : nat) (p : PushProcessor W)
    (req : Request) (subscriber : string) (psp : PushServiceProvider)
    (dp : DeliveryPoint) (w : W) : list Z :=
  match rounds with
  | O => []
  | S rounds' =>
      match trace_of (retryRequest p req 0 subscriber psp dp) w with
      | [EvSleep d; EvSend newreq] =>
          d :: retry_delays rounds' p newreq subscriber psp dp
                 (world_of (retryRequest p req 0 subscriber psp dp) w)
      | _ => []
      end
  end.

(** ** A concrete world: the clock is a counter *)

Definition sample_backend (r : string * option error) : PushServiceManager Z :=
  {| Push := fun _ _ _ w => (r, w) |}.

Definition sample_storage (pairs : list PushServiceProviderDeliveryPointPair)
    (err : option error) : PushDatabase Z :=
  {| GetPushServiceProviderDeliveryPointPairs := fun _ _ w => ((pairs, err), w);
     ModifyPushServiceProvider := fun _ w => (None, w);
     ModifyDeliveryPoint := fun _ w => (None, w) |}.

#[export] Instance sample_runtime : Runtime Z :=
  {| time_Now := fun w => (w, w + 1);
     nil_PushServiceManager := sample_backend ("", None) |}.

Definition sample_processor
    (pairs : list PushServiceProviderDeliveryPointPair) (err : option error)
    (r : string * option error) : PushProcessor Z :=
  {| dbfront := sample_storage pairs err;
     max_nr_gorountines := 1024;
     max_nr_retry := 3;
     psm := sample_backend r |}.

Definition sample_psp : PushServiceProvider :=
  mkPSP "gcm:acme" "gcm" "gcm:acme:key".
Definition sample_psp' : PushServiceProvider :=
  mkPSP "gcm:acme" "gcm" "gcm:acme:key2".
Definition dpA : DeliveryPoint := mkDP "A" "regid=a".
Definition dpB : DeliveryPoint := mkDP "B" "regid=b".
Definition dpC : DeliveryPoint := mkDP "C" "regid=c".
Definition sample_note : Notification := mkNotification [("msg", "hello")].

Definition sample_request (subs : list string) : Request :=
  {| ID := "req-1";
     Action := ACTION_PUSH;
     Service := "news";
     RequestSenderAddr := "10.0.0.1:4000";
     Subscribers := subs;
     req_PushServiceProvider := None;
     req_DeliveryPoint := None;
     req_Notification := Some sample_note;
     nrRetries := 0;
     backoffTime := 0;
     PreviousTry := None;
     Timestamp := 0 |}.

Definition sample_pairs : list PushServiceProviderDeliveryPointPair :=
  [mkPair sample_psp dpA; mkPair sample_psp dpB;
   mkPair sample_psp dpA; mkPair sample_psp dpC].

Definition many_subscribers (n : nat) : list string := repeat "alice" n.

Definition default_processor : PushProcessor Z :=
  NewPushProcessor (sample_storage [] None) (sample_backend ("", None)).

Definition small_processor (cap : Z) : PushProcessor Z :=
  {| dbfront := sample_storage [] None;
     max_nr_gorountines := cap;
     max_nr_retry := 3;
     psm := sample_backend ("", None) |}.

Definition refresh_denied : error :=
  RefreshDataError (Some sample_psp') None (Some (errorString "denied")).

Definition refresh_cleared : error :=
  RefreshDataError (Some sample_psp') (Some dpB) None.

Definition five_subscribers : list string := ["a"; "b"; "c"; "d"; "e"].

(** ** Predicates on programs *)

(** [m] never emits an event selected by [P], in any goroutine. *)
Definition quiet {W A} (P : event -> bool) (m : M W A) : Prop :=
  forall w, count P (trace_of m w) = 0%nat.

(** [m] always returns: it neither panics nor runs out of fuel. *)
Definition returns {W A} (m : M W A) : Prop :=
  forall w, exists a, result_of m w = Ok a.

(** ** Observations on the dispatcher and on the hand-off channel *)

(** The test of the direct path of [Process] (lines 261 to 263). *)
Definition direct (req : Request) : bool :=
  match Subscribers req, req_PushServiceProvider req, req_DeliveryPoint req
  with
  | [_], Some _, Some _ => true
  | _, _, _ => false
  end.

Definition is_worker (e : event) : bool :=
  match e with
  | EvGo (go_push _) _ | EvGo (go_pushBulk _) _ => true
  | _ => false
  end.
Definition is_wg_add (e : event) : bool :=
  match e with EvWgAdd => true | _ => false end.
Definition is_wg_done (e : event) : bool :=
  match e with EvWgDone => true | _ => false end.

(** The subscribers given to each [push] or [pushBulk] goroutine that [t]
    starts itself, in spawn order. *)
Definition workers (t : trace) : list (list string) :=
  flat_map (fun e => match e with
                     | EvGo (go_push s) _ => [[s]]
                     | EvGo (go_pushBulk subs) _ => [subs]
                     | _ => []
                     end) t.

(** What the deferred function of [push] leaves in the trace. *)
Definition deferred_done (wg : bool) : trace :=
  if wg then [EvWgDone] else [].

(** The wait group of [t] is balanced: its counter is raised once for
    every worker that [t] starts and lowered once by each of them. *)
Definition balanced (t : trace) : Prop :=
  count is_wg_add t = List.length (workers t)
  /\ count is_wg_done t = List.length (workers t).

(** [r] is a follow-up of [req]: it has the id, the service and the sender
    of [req] and one subscriber, and it is either an unsubscribe request or
    a push request that takes the direct path. *)
Definition follows_up (req r : Request) : bool :=
  String.eqb (ID r) (ID req)
  && String.eqb (Service r) (Service req)
  && String.eqb (RequestSenderAddr r) (RequestSenderAddr req)
  && Nat.eqb (List.length (Subscribers r)) 1
  && match Action r with
     | ACTION_PUSH => direct r
     | ACTION_UNSUBSCRIBE => true
     | _ => false
     end.

(** A send of a request that is not a follow-up of [req]. *)
Definition stray_send (req : Request) (e : event) : bool :=
  match e with
  | EvSend r => negb (follows_up req r)
  | _ => false
  end.

(** The chain of retries of [req] when the k-th retry fails with a
    retryable error whose retry-after value is the k-th element of
    [retryAfters]: the sleep of each retry, in nanoseconds, and the
    request it sends. The chain ends with the list or when [retryRequest]
    sends nothing. *)
Fixpoint retry_chain {W} `{Runtime W} (retryAfters : list Z)
    (p : PushProcessor W) (req : Request) (subscriber : string)
    (psp : PushServiceProvider) (dp : DeliveryPoint) (w : W)
  : list (Z * Request) :=
  match retryAfters with
  | [] => []
  | retryAfter :: rest =>
      match trace_of (retryRequest p req retryAfter subscriber psp dp) w with
      | [EvSleep d; EvSend newreq] =>
          (d, newreq)
            :: retry_chain rest p newreq subscriber psp dp
                 (world_of (retryRequest p req retryAfter subscriber psp dp) w)
      | _ => []
      end
  end.

Definition retried_request : Request :=
  retry_of (sample_request ["alice"]) "alice" sample_psp dpA 0.

Definition distinct_pairs : list PushServiceProviderDeliveryPointPair :=
  [mkPair sample_psp dpA; mkPair sample_psp dpB; mkPair sample_psp dpC].

Definition is_wg_wait (e : event) : bool :=
  match e with EvWgWait => true | _ => false end.

(** The world that the storage leaves when it is given, in the order of
    [refreshData], the refreshed provider and the refreshed delivery point
    that are present. *)
Definition persist_refreshed {W} (db : PushDatabase W)
    (re_psp : option PushServiceProvider) (re_dp : option DeliveryPoint)
    (w : W) : W :=
  let w2 := match re_psp with
            | Some x => snd (ModifyPushServiceProvider db x w)
            | None => w
            end in
  match re_dp with
  | Some d => snd (ModifyDeliveryPoint db d w2)
  | None => w2
  end.

(** A storage that keeps what it is given: its world is the list of the
    providers and delivery points persisted so far, the latest first. *)
Definition stored : Type := list (PushServiceProvider + DeliveryPoint).

Definition keeping_storage : PushDatabase stored :=
  {| GetPushServiceProviderDeliveryPointPairs := fun _ _ w => (([], None), w);
     ModifyPushServiceProvider := fun x w => (None, inl x :: w);
     ModifyDeliveryPoint := fun d w => (None, inr d :: w) |}.

Definition keeping_backend (r : string * option error)
  : PushServiceManager stored :=
  {| Push := fun _ _ _ w => (r, w) |}.

#[export] Instance keeping_runtime : Runtime stored :=
  {| time_Now := fun w => (0, w);
     nil_PushServiceManager := keeping_backend ("", None) |}.

Definition keeping_processor (r : string * option error)
  : PushProcessor stored :=
  {| dbfront := keeping_storage;
     max_nr_gorountines := 1024;
     max_nr_retry := 3;
     psm := keeping_backend r |}.

(** A first retry whose stored back-off is 2^62 seconds. *)
Definition huge_backoff_request : Request :=
  {| ID := "req-1";
     Action := ACTION_PUSH;
     Service := "news";
     RequestSenderAddr := "10.0.0.1:4000";
     Subscribers := ["alice"];
     req_PushServiceProvider := Some sample_psp;
     req_DeliveryPoint := Some dpA;
     req_Notification := Some sample_note;
     nrRetries := 1;
     backoffTime := 2 ^ 62;
     PreviousTry := None;
     Timestamp := 0 |}.

(** * Properties *)

(** ** Traces *)

Lemma flatten_app (a b : trace) : flatten (a ++ b) = flatten a ++ flatten b.
Proof. unfold flatten. apply flat_map_app. Qed.

Lemma count_app P (a b : trace) :
  count P (a ++ b) = (count P a + count P b)%nat.
Proof.
  unfold count. now rewrite flatten_app, filter_app, length_app.
Qed.

Lemma count_go P g (t : trace) :
  P (EvGo g t) = false -> count P [EvGo g t] = count P t.
Proof.
  intros H. unfold count, flatten. cbn [flat_map flat_event].
  rewrite app_nil_r. cbn [filter]. now rewrite H.
Qed.

Lemma attempts_app (a b : trace) :
  attempts (a ++ b) = attempts a ++ attempts b.
Proof. unfold attempts. now rewrite flatten_app, flat_map_app. Qed.

Lemma processed_app (a b : trace) :
  processed (a ++ b) = processed a ++ processed b.
Proof. unfold processed. now rewrite flatten_app, flat_map_app. Qed.

Lemma batches_app (a b : trace) : batches (a ++ b) = batches a ++ batches b.
Proof. unfold batches. apply flat_map_app. Qed.

Lemma processed_go g (t : trace) : processed [EvGo g t] = processed t.
Proof.
  unfold processed, flatten. cbn [flat_map flat_event].
  now rewrite app_nil_r.
Qed.

(** A trace without storage lookups processes no subscriber, and a trace
    without backend pushes makes no attempt. *)
Lemma count_0_flat_map {B} P (f : event -> list B) (l : trace) :
  (forall e, P e = false -> f e = []) ->
  List.length (filter P l) = 0%nat -> flat_map f l = [].
Proof.
  intros Hf. induction l as [|e l IH]; cbn; [reflexivity|].
  destruct (P e) eqn:E; cbn; [discriminate|].
  intros H. now rewrite (Hf e E), IH.
Qed.

Lemma processed_quiet (t : trace) :
  count is_get_pairs t = 0%nat -> processed t = [].
Proof.
  apply count_0_flat_map. now intros [].
Qed.

Lemma attempts_quiet (t : trace) :
  count is_push t = 0%nat -> attempts t = [].
Proof.
  apply count_0_flat_map. now intros [].
Qed.

(** [respond_first] says what its name says: an event selected by [act]
    has a [Respond] before it. *)
Lemma respond_first_spec act (t : trace) :
  (forall r, act (EvRespond r) = false) ->
  respond_first act t = true <-> reported_before act t.
Proof.
  unfold reported_before.
  intros Hact. induction t as [|x t IH]; cbn.
  - split; [|reflexivity]. intros _ a e b H. destruct a; cbn in H; discriminate H.
  - destruct (is_respond x) eqn:R.
    + split; [|reflexivity]. intros _ a e b H Ha.
      destruct x; try discriminate R.
      destruct a as [|y a]; cbn in H; inversion H; subst.
      * rewrite Hact in Ha. discriminate Ha.
      * eexists. left. reflexivity.
    + destruct (act x) eqn:A.
      * split; [discriminate|]. intros H.
        destruct (H [] x t eq_refl A) as [r []].
      * rewrite IH. split; intros H a e b Heq Ha.
        -- destruct a as [|y a]; cbn in Heq; inversion Heq; subst.
           ++ congruence.
           ++ destruct (H a e b eq_refl Ha) as [r Hr]. exists r. now right.
        -- destruct (H (x :: a) e b) as [r Hr]; [now rewrite Heq | assumption|].
           destruct Hr as [Hr|Hr]; [subst x; discriminate R|]. now exists r.
Qed.

Lemma before_from_respond (t : trace) :
  t = before_respond t ++ from_respond t.
Proof.
  induction t as [|e t IH]; cbn; [reflexivity|].
  destruct (is_respond e); cbn; [reflexivity | now rewrite <- IH].
Qed.

(** ** Machine integers *)

Lemma wrap64_small z : - 2 ^ 63 <= z < 2 ^ 63 -> wrap64 z = z.
Proof.
  intros H. unfold wrap64. rewrite Z.mod_small; lia.
Qed.

Lemma int64_shl1_double z : - 2 ^ 62 <= z < 2 ^ 62 -> int64_shl1 z = 2 * z.
Proof.
  intros H. unfold int64_shl1. rewrite Z.shiftl_mul_pow2 by lia.
  rewrite wrap64_small; lia.
Qed.

Section Monad.

Context {W : Type} `{RT : Runtime W}.

Implicit Types (p : PushProcessor W) (w : W) (req : Request)
  (subscriber : string) (psp : PushServiceProvider) (dp : DeliveryPoint).

(** ** The monad *)

Lemma trace_of_bind {A B} (m : M W A) (f : A -> M W B) (w : W) :
  trace_of (bind m f) w =
  trace_of m w ++ match result_of m w with
                  | Ok a => trace_of (f a) (world_of m w)
                  | _ => []
                  end.
Proof.
  unfold trace_of, result_of, world_of, bind.
  destruct (m w) as [[[a| |] t] w1]; cbn; try now rewrite app_nil_r.
  now destruct (f a w1) as [[r t'] w2].
Qed.

Lemma result_of_bind {A B} (m : M W A) (f : A -> M W B) (w : W) :
  result_of (bind m f) w =
  match result_of m w with
  | Ok a => result_of (f a) (world_of m w)
  | Panic msg => Panic msg
  | OutOfFuel => OutOfFuel
  end.
Proof.
  unfold result_of, world_of, bind.
  destruct (m w) as [[[a| |] t] w1]; cbn; try reflexivity.
  now destruct (f a w1) as [[r t'] w2].
Qed.

Lemma world_of_bind {A B} (m : M W A) (f : A -> M W B) (w : W) :
  world_of (bind m f) w =
  match result_of m w with
  | Ok a => world_of (f a) (world_of m w)
  | _ => world_of m w
  end.
Proof.
  unfold result_of, world_of, bind.
  destruct (m w) as [[[a| |] t] w1]; cbn; try reflexivity.
  now destruct (f a w1) as [[r t'] w2].
Qed.

Lemma trace_of_defer {A} (d : M W unit) (body : M W A) (w : W) :
  trace_of (defer d body) w =
  trace_of body w ++ trace_of d (world_of body w).
Proof.
  unfold trace_of, world_of, defer.
  destruct (body w) as [[r t] w1]; cbn.
  now destruct (d w1) as [[r' t'] w2].
Qed.

Lemma result_of_defer {A} (d : M W unit) (body : M W A) (w : W) :
  result_of (defer d body) w = result_of body w.
Proof.
  unfold result_of, defer.
  destruct (body w) as [[r t] w1]; cbn.
  now destruct (d w1) as [[r' t'] w2].
Qed.

Lemma trace_of_go g (body : M W unit) (w : W) :
  trace_of (go g body) w = [EvGo g (trace_of body w)].
Proof.
  unfold trace_of, go. now destruct (body w) as [[r t] w1].
Qed.

Lemma result_of_go g (body : M W unit) (w : W) :
  result_of (go g body) w = Ok tt.
Proof.
  unfold result_of, go. now destruct (body w) as [[r t] w1].
Qed.

(** ** Programs that never emit an event of a given kind *)

Lemma quiet_ret {A} P (a : A) : quiet P (@ret W A a).
Proof. intros w. reflexivity. Qed.

Lemma quiet_panic {A} P msg : quiet P (@panic W A msg).
Proof. intros w. reflexivity. Qed.

Lemma quiet_out_of_fuel {A} P : quiet P (@out_of_fuel W A).
Proof. intros w. reflexivity. Qed.

Lemma quiet_emit P e : P e = false -> (forall g t, e <> EvGo g t) ->
  quiet P (@emit W e).
Proof.
  intros H Hgo w. unfold trace_of, emit, count, flatten. cbn.
  destruct e; cbn; try (now rewrite H). now elim (Hgo g body).
Qed.

Lemma quiet_bind {A B} P (m : M W A) (f : A -> M W B) :
  quiet P m -> (forall a, quiet P (f a)) -> quiet P (bind m f).
Proof.
  intros Hm Hf w. rewrite trace_of_bind, count_app, Hm.
  destruct (result_of m w); [apply Hf | reflexivity | reflexivity].
Qed.

Lemma quiet_defer {A} P (d : M W unit) (body : M W A) :
  quiet P body -> quiet P d -> quiet P (defer d body).
Proof.
  intros Hb Hd w. now rewrite trace_of_defer, count_app, Hb, Hd.
Qed.

Lemma quiet_go P g (body : M W unit) :
  (forall t, P (EvGo g t) = false) -> quiet P body -> quiet P (go g body).
Proof.
  intros Hg Hb w. rewrite trace_of_go, count_go by apply Hg. apply Hb.
Qed.

Lemma quiet_for_each {A} P (l : list A) (f : A -> M W unit) :
  (forall x, quiet P (f x)) -> quiet P (for_each l f).
Proof.
  intros Hf. induction l as [|x l IH]; cbn [for_each].
  - apply quiet_ret.
  - apply quiet_bind; [apply Hf | intros _; apply IH].
Qed.

Lemma quiet_now P : quiet P now.
Proof.
  intros w. unfold trace_of, now. now destruct (time_Now w).
Qed.

Lemma quiet_int_div P a b : quiet P (@int_div W a b).
Proof.
  unfold int_div. destruct (b =? 0); [apply quiet_panic | apply quiet_ret].
Qed.

Lemma quiet_int_rem P a b : quiet P (@int_rem W a b).
Proof.
  unfold int_rem. destruct (b =? 0); [apply quiet_panic | apply quiet_ret].
Qed.

Lemma quiet_slice {A} P (l : list A) lo hi : quiet P (@slice W A l lo hi).
Proof.
  unfold slice.
  destruct ((0 <=? lo) && (lo <=? hi) && (hi <=? len l));
    [apply quiet_ret | apply quiet_panic].
Qed.

Lemma quiet_modifyPushServiceProvider P p x :
  P (EvModifyPSP x) = false -> quiet P (modifyPushServiceProvider p x).
Proof.
  intros H w. unfold trace_of, modifyPushServiceProvider.
  destruct (ModifyPushServiceProvider _ _ _). unfold count. cbn.
  now rewrite H.
Qed.

Lemma quiet_modifyDeliveryPoint P p d :
  P (EvModifyDP d) = false -> quiet P (modifyDeliveryPoint p d).
Proof.
  intros H w. unfold trace_of, modifyDeliveryPoint.
  destruct (ModifyDeliveryPoint _ _ _). unfold count. cbn.
  now rewrite H.
Qed.

Lemma quiet_psm_Push P p psp dp n :
  P (EvPush psp dp n) = false -> quiet P (psm_Push p psp dp n).
Proof.
  intros H w. unfold trace_of, psm_Push.
  destruct (Push _ _ _ _ _). unfold count. cbn.
  now rewrite H.
Qed.

Lemma quiet_getPairs P p service subscriber :
  P (EvGetPairs service subscriber) = false ->
  quiet P (getPairs p service subscriber).
Proof.
  intros H w. unfold trace_of, getPairs.
  destruct (GetPushServiceProviderDeliveryPointPairs _ _ _ _).
  unfold count. cbn. now rewrite H.
Qed.

(** ** Programs that always return *)

Lemma returns_unit (m : M W unit) w : returns m -> result_of m w = Ok tt.
Proof. intros H. destruct (H w) as [[] E]. exact E. Qed.

Lemma returns_ret {A} (a : A) : returns (@ret W A a).
Proof. intros w. now exists a. Qed.

Lemma returns_emit e : returns (@emit W e).
Proof. intros w. now exists tt. Qed.

Lemma returns_bind {A B} (m : M W A) (f : A -> M W B) :
  returns m -> (forall a, returns (f a)) -> returns (bind m f).
Proof.
  intros Hm Hf w. rewrite result_of_bind.
  destruct (Hm w) as [a ->]. apply Hf.
Qed.

Lemma returns_defer {A} (d : M W unit) (body : M W A) :
  returns body -> returns (defer d body).
Proof. intros Hb w. rewrite result_of_defer. apply Hb. Qed.

Lemma returns_go g (body : M W unit) : returns (go g body).
Proof. intros w. exists tt. apply result_of_go. Qed.

Lemma returns_for_each {A} (l : list A) (f : A -> M W unit) :
  (forall x, returns (f x)) -> returns (for_each l f).
Proof.
  intros Hf. induction l as [|x l IH]; cbn [for_each].
  - apply returns_ret.
  - apply returns_bind; [apply Hf | intros _; apply IH].
Qed.

Lemma returns_now : returns now.
Proof.
  intros w. unfold result_of, now. destruct (time_Now w) as [ts w1].
  now exists ts.
Qed.

Lemma returns_modifyPushServiceProvider p x :
  returns (modifyPushServiceProvider p x).
Proof.
  intros w. unfold result_of, modifyPushServiceProvider.
  destruct (ModifyPushServiceProvider _ _ _). now exists tt.
Qed.

Lemma returns_modifyDeliveryPoint p d : returns (modifyDeliveryPoint p d).
Proof.
  intros w. unfold result_of, modifyDeliveryPoint.
  destruct (ModifyDeliveryPoint _ _ _). now exists tt.
Qed.

Lemma returns_psm_Push p psp dp n : returns (psm_Push p psp dp n).
Proof.
  intros w. unfold result_of, psm_Push.
  destruct (Push _ _ _ _ _) as [r w1]. now exists r.
Qed.

Lemma returns_getPairs p service subscriber :
  returns (getPairs p service subscriber).
Proof.
  intros w. unfold result_of, getPairs.
  destruct (GetPushServiceProviderDeliveryPointPairs _ _ _ _) as [r w1].
  now exists r.
Qed.

End Monad.

(** One step of a proof that a program is quiet: the rule of the head
    combinator, or a case distinction on what the program branches on. *)
Ltac quiet_step :=
  first
    [ apply quiet_ret
    | apply quiet_panic
    | apply quiet_out_of_fuel
    | apply quiet_now
    | apply quiet_int_div
    | apply quiet_int_rem
    | apply quiet_slice
    | apply quiet_emit; [reflexivity | discriminate]
    | apply quiet_modifyPushServiceProvider; reflexivity
    | apply quiet_modifyDeliveryPoint; reflexivity
    | apply quiet_psm_Push; reflexivity
    | apply quiet_getPairs; reflexivity
    | apply quiet_go; [reflexivity|]
    | apply quiet_defer
    | apply quiet_for_each; intros
    | apply quiet_bind; [|intros]
    | match goal with
      | |- quiet _ (match ?x with _ => _ end) => destruct x
      end ].

Ltac quiet_auto := repeat quiet_step.

Ltac returns_step :=
  first
    [ apply returns_ret
    | apply returns_emit
    | apply returns_now
    | apply returns_modifyPushServiceProvider
    | apply returns_modifyDeliveryPoint
    | apply returns_psm_Push
    | apply returns_getPairs
    | apply returns_go
    | apply returns_defer
    | apply returns_for_each; intros
    | apply returns_bind; [|intros]
    | match goal with
      | |- returns (match ?x with _ => _ end) => destruct x
      end ].

Ltac returns_auto := repeat returns_step.

(** ** One delivery attempt *)

Ltac unfold_attempt :=
  unfold pushToDeliveryPoint, pushToDeliveryPoint_failed, refreshData,
    pushSucc, pushFail, pushRetry, retryRequest, unsubscribe, recycle,
    logf, Respond, send, time_After.

Ltac run_attempt H :=
  unfold trace_of, world_of, result_of; unfold_attempt;
  unfold psm_Push, bind, ret, emit, go, now, modifyPushServiceProvider,
    modifyDeliveryPoint;
  rewrite H; cbn.

Ltac split_all := repeat match goal with |- _ /\ _ => split end.

Section Attempt.

Context {W : Type} `{RT : Runtime W}.

Implicit Types (p : PushProcessor W) (w : W) (req : Request)
  (subscriber : string) (psp : PushServiceProvider) (dp : DeliveryPoint).

Lemma quiet_finish_attempt p req subscriber psp dp :
  quiet is_finish (pushToDeliveryPoint p req subscriber psp dp).
Proof. unfold_attempt. quiet_auto. Qed.

Lemma quiet_get_pairs_attempt p req subscriber psp dp :
  quiet is_get_pairs (pushToDeliveryPoint p req subscriber psp dp).
Proof. unfold_attempt. quiet_auto. Qed.

Lemma returns_attempt p req subscriber psp dp :
  returns (pushToDeliveryPoint p req subscriber psp dp).
Proof. unfold_attempt. returns_auto. Qed.

Lemma trace_of_psm_Push p psp dp n w :
  trace_of (psm_Push p psp dp n) w = [EvPush psp dp n].
Proof. unfold trace_of, psm_Push. now destruct (Push _ _ _ _ _). Qed.

Lemma result_of_psm_Push p psp dp n w :
  result_of (psm_Push p psp dp n) w = Ok (fst (Push (psm p) psp dp n w)).
Proof. unfold result_of, psm_Push. now destruct (Push _ _ _ _ _). Qed.

(** Every attempt calls the backend once, first of all, for its own pair. *)
Lemma attempts_pushToDeliveryPoint p req subscriber psp dp w :
  attempts (trace_of (pushToDeliveryPoint p req subscriber psp dp) w)
  = [(psp, dp)].
Proof.
  unfold pushToDeliveryPoint.
  rewrite trace_of_bind, trace_of_psm_Push, result_of_psm_Push, attempts_app.
  match goal with
  | |- _ ++ attempts (trace_of ?k ?w') = _ =>
      assert (Q : quiet is_push k); [|now rewrite (attempts_quiet _ (Q w'))]
  end.
  unfold_attempt. quiet_auto.
Qed.

(** C9. When the backend error carries refreshable credential data and no
    underlying error is left, the attempt is a success. The refreshed
    provider and the refreshed target that are present are persisted: each
    is passed once to the storage, the provider first, and the world after
    the attempt is the one that the storage's own [ModifyPushServiceProvider]
    and [ModifyDeliveryPoint] leave, starting from the world after the
    push. The trace ends with the success path ([pushSucc]: the success
    log line and the release of the notification), and nothing is given
    to [Respond]. *)
Theorem refresh_without_error_is_success
    p req subscriber psp dp w id re_psp re_dp w1 :
  Push (psm p) psp dp (req_Notification req) w
    = ((id, Some (RefreshDataError re_psp re_dp None)), w1) ->
  let t := trace_of (pushToDeliveryPoint p req subscriber psp dp) w in
  responses t = []
  /\ (forall x, re_psp = Some x -> In (EvModifyPSP x) t)
  /\ (forall d, re_dp = Some d -> In (EvModifyDP d) t)
  /\ count is_persist t
     = (match re_psp with Some _ => 1 | None => 0 end
        + match re_dp with Some _ => 1 | None => 0 end)%nat
  /\ (exists pre, t = pre ++ trace_of (pushSucc p req subscriber psp dp id) w)
  /\ count is_recycle t = 1%nat
  /\ world_of (pushToDeliveryPoint p req subscriber psp dp) w
     = persist_refreshed (dbfront p) re_psp re_dp w1
  /\ result_of (pushToDeliveryPoint p req subscriber psp dp) w = Ok tt.
Proof.
  intros H t. subst t. unfold persist_refreshed. run_attempt H.
  destruct re_psp as [x|], re_dp as [d|]; cbn;
    repeat match goal with
           | |- context [ModifyPushServiceProvider ?a ?b ?c] =>
               destruct (ModifyPushServiceProvider a b c); cbn
           | |- context [ModifyDeliveryPoint ?a ?b ?c] =>
               destruct (ModifyDeliveryPoint a b c); cbn
           end;
    split_all; try reflexivity; try discriminate;
    try (intros ? [= <-]; cbn; tauto);
    match goal with
    | |- exists pre, ?a :: ?l = _ =>
        exists (firstn (List.length l - 1)%nat (a :: l)); reflexivity
    end.
Qed.

(** C8. An attempt whose remaining error is [*UnregisteredError] sends
    exactly one request on the hand-off channel: an unsubscribe request
    with the id of the request, the subscriber alone in its subscriber
    list, the action [ACTION_UNSUBSCRIBE] and the delivery point of the
    attempt; it starts no retry. *)
Theorem unregistered_unsubscribes_once p req subscriber psp dp w id e w1 :
  Push (psm p) psp dp (req_Notification req) w = ((id, Some e), w1) ->
  remaining_error e = Some UnregisteredError ->
  let t := trace_of (pushToDeliveryPoint p req subscriber psp dp) w in
  (exists r, sent t = [r]
             /\ ID r = ID req
             /\ Subscribers r = [subscriber]
             /\ Action r = ACTION_UNSUBSCRIBE
             /\ req_DeliveryPoint r = Some dp
             /\ Service r = Service req
             /\ RequestSenderAddr r = RequestSenderAddr req)
  /\ count is_send t = 1%nat
  /\ count is_go_retry t = 0%nat.
Proof.
  intros H He t. subst t. run_attempt H.
  destruct e as [re_psp re_dp other| | |]; cbn in He; try discriminate He.
  - subst other.
    destruct re_psp as [x|], re_dp as [d|]; cbn;
      repeat match goal with
             | |- context [ModifyPushServiceProvider ?a ?b ?c] =>
                 destruct (ModifyPushServiceProvider a b c)
             | |- context [ModifyDeliveryPoint ?a ?b ?c] =>
                 destruct (ModifyDeliveryPoint a b c)
             | |- context [time_Now ?a] => destruct (time_Now a)
             end; cbn;
      (split; [eexists; split_all; reflexivity | split; reflexivity]).
  - destruct (time_Now w1); cbn.
    split; [eexists; split_all; reflexivity | split; reflexivity].
Qed.

(** C3 does not hold for a target that is no longer registered: an
    attempt whose remaining error is [*UnregisteredError] ends its chain
    (no retry is started) without ever releasing the notification, while
    the success and the failure paths release it. *)
Theorem unregistered_never_recycles p req subscriber psp dp w id e w1 :
  Push (psm p) psp dp (req_Notification req) w = ((id, Some e), w1) ->
  remaining_error e = Some UnregisteredError ->
  let t := trace_of (pushToDeliveryPoint p req subscriber psp dp) w in
  count is_recycle t = 0%nat /\ count is_go_retry t = 0%nat.
Proof.
  intros H He t. subst t. run_attempt H.
  destruct e as [re_psp re_dp other| | |]; cbn in He; try discriminate He.
  - subst other.
    destruct re_psp as [x|], re_dp as [d|]; cbn;
      repeat match goal with
             | |- context [ModifyPushServiceProvider ?a ?b ?c] =>
                 destruct (ModifyPushServiceProvider a b c)
             | |- context [ModifyDeliveryPoint ?a ?b ?c] =>
                 destruct (ModifyDeliveryPoint a b c)
             | |- context [time_Now ?a] => destruct (time_Now a)
             end; cbn; split; reflexivity.
  - destruct (time_Now w1); cbn. split; reflexivity.
Qed.

(** The other chain that ends without a release: a retryable failure of a
    request that has used up its retries. The goroutine that is started
    returns at once: nothing is sent, nothing is released. *)
Lemma exhausted_retry_never_recycles p req subscriber psp dp w id ra w1 :
  Push (psm p) psp dp (req_Notification req) w
    = ((id, Some (RetryError ra)), w1) ->
  max_nr_retry p <= nrRetries req ->
  let t := trace_of (pushToDeliveryPoint p req subscriber psp dp) w in
  count is_recycle t = 0%nat /\ sent t = [].
Proof.
  intros H Hmax t. subst t. run_attempt H.
  destruct (Z.leb_spec (max_nr_retry p) (nrRetries req)); [|lia].
  cbn. split; reflexivity.
Qed.

(** C2, as the code has it. When an error is left after the attempt, it
    is given to [Respond] exactly once, and that happens before the retry
    is started, before the unsubscribe request is sent and before the
    notification is released. The refreshed credentials of a
    [*RefreshDataError] are handed to the storage before the report:
    after the report nothing is persisted. *)
Theorem report_precedes_late_recovery p req subscriber psp dp w id e e' w1 :
  Push (psm p) psp dp (req_Notification req) w = ((id, Some e), w1) ->
  remaining_error e = Some e' ->
  let t := trace_of (pushToDeliveryPoint p req subscriber psp dp) w in
  responses t = [reported subscriber psp dp e']
  /\ reported_before is_late_recovery t
  /\ exists pre post,
       t = pre ++ EvRespond (reported subscriber psp dp e') :: post
       /\ count is_late_recovery pre = 0%nat
       /\ count is_persist post = 0%nat.
Proof.
  intros H He t.
  assert (G : responses t = [reported subscriber psp dp e']
              /\ respond_first is_late_recovery t = true
              /\ from_respond t
                 = EvRespond (reported subscriber psp dp e')
                     :: tl (from_respond t)
              /\ count is_late_recovery (before_respond t) = 0%nat
              /\ count is_persist (tl (from_respond t)) = 0%nat).
  { subst t. run_attempt H.
    destruct e as [re_psp re_dp other| | |]; cbn in He;
      [subst other; destruct re_psp as [x|], re_dp as [d|]; cbn
      | injection He as <- ..]; cbn;
      repeat match goal with
             | |- context [ModifyPushServiceProvider ?a ?b ?c] =>
                 destruct (ModifyPushServiceProvider a b c); cbn
             | |- context [ModifyDeliveryPoint ?a ?b ?c] =>
                 destruct (ModifyDeliveryPoint a b c); cbn
             end;
      try destruct e' as [? ? ?| | |]; cbn;
      repeat match goal with
             | |- context [time_Now ?a] => destruct (time_Now a); cbn
             | |- context [?a <=? ?b] => destruct (a <=? b); cbn
             end;
      split_all; reflexivity. }
  destruct G as (G1 & G2 & G3 & G4 & G5).
  split; [exact G1|]. split.
  - apply respond_first_spec; [reflexivity | exact G2].
  - exists (before_respond t), (tl (from_respond t)).
    rewrite <- G3. split; [apply before_from_respond | now split].
Qed.

(** ** The retry scheduler *)

Lemma retryRequest_run p req retryAfter subscriber psp dp w :
  nrRetries req < max_nr_retry p ->
  retryRequest p req retryAfter subscriber psp dp w
  = (Ok tt,
     [EvSleep (int64_mul (waitTime (next_backoffTime req) retryAfter)
                         1000000000);
      EvSend (retry_of req subscriber psp dp (fst (time_Now w)))],
     snd (time_Now w)).
Proof.
  intros H. unfold retryRequest.
  destruct (Z.leb_spec (max_nr_retry p) (nrRetries req)); [lia|].
  unfold bind, now, time_After, send, emit. now destruct (time_Now w).
Qed.

Lemma retryRequest_exhausted p req retryAfter subscriber psp dp w :
  max_nr_retry p <= nrRetries req ->
  retryRequest p req retryAfter subscriber psp dp w = (Ok tt, [], w).
Proof.
  intros H. unfold retryRequest.
  now destruct (Z.leb_spec (max_nr_retry p) (nrRetries req)); [|lia].
Qed.

Lemma retry_delays_step rounds p req subscriber psp dp w :
  nrRetries req < max_nr_retry p ->
  retry_delays (S rounds) p req subscriber psp dp w
  = int64_mul (next_backoffTime req) 1000000000
      :: retry_delays rounds p
           (retry_of req subscriber psp dp (fst (time_Now w)))
           subscriber psp dp (snd (time_Now w)).
Proof.
  intros H. cbn [retry_delays]. unfold trace_of, world_of.
  now rewrite retryRequest_run.
Qed.

Lemma retry_delays_stop rounds p req subscriber psp dp w :
  max_nr_retry p <= nrRetries req ->
  retry_delays rounds p req subscriber psp dp w = [].
Proof.
  intros H. destruct rounds; cbn [retry_delays]; [reflexivity|].
  unfold trace_of. now rewrite retryRequest_exhausted.
Qed.

(** C4. With the processor that [NewPushProcessor] builds, a chain that
    starts at a request with no retry behind it and fails with a retryable
    error every time sleeps 3, 6 and 12 seconds before its three retries,
    and that is all: however long the chain is followed, a request that
    is the third retry starts no further retry. *)
Theorem default_retry_delays db psm_arg req subscriber psp dp w more :
  nrRetries req = 0 ->
  retry_delays (4 + more) (NewPushProcessor db psm_arg) req subscriber psp dp w
  = [3 * 10 ^ 9; 6 * 10 ^ 9; 12 * 10 ^ 9]
  /\ forall r retryAfter w',
       nrRetries r = 3 ->
       retryRequest (NewPushProcessor db psm_arg) r retryAfter
                    subscriber psp dp w'
       = (Ok tt, [], w').
Proof.
  intros H. split.
  - change (4 + more)%nat with (S (S (S (S more)))).
    rewrite retry_delays_step by (cbn; lia).
    rewrite retry_delays_step by (cbn; lia).
    rewrite retry_delays_step by (cbn; lia).
    rewrite retry_delays_stop by (cbn; lia).
    assert (B0 : next_backoffTime req = 3)
      by (unfold next_backoffTime; now rewrite H).
    set (r1 := retry_of req subscriber psp dp _).
    assert (B1 : next_backoffTime r1 = 6)
      by (unfold next_backoffTime; cbn [nrRetries backoffTime retry_of r1];
          now rewrite B0, H).
    set (r2 := retry_of r1 subscriber psp dp _).
    assert (B2 : next_backoffTime r2 = 12)
      by (unfold next_backoffTime; cbn [nrRetries backoffTime retry_of r1 r2];
          now rewrite B1, H).
    now rewrite B0, B1, B2.
  - intros r retryAfter w' Hr. apply retryRequest_exhausted. cbn. lia.
Qed.

(** C5, within the range of [int64]. A retryable failure that is retried
    and carries a retry-after value above 0 whose count of nanoseconds is
    below 2^63 sleeps for that value, not for the computed back-off, when
    the back-off of the request is at least 0 and below 2^30 seconds. The
    retry request is the one that is sent without a retry-after value:
    its back-off is the computed one (3 seconds for a first retry or
    after a back-off of 0, the double of the back-off of the request
    otherwise), so that the next retry, when it carries no retry-after
    value, sleeps for the double of the computed back-off and stores
    that double. *)
Theorem retry_after_overrides_wait_only
    p req retryAfter subscriber psp dp w :
  0 < retryAfter ->
  retryAfter * 10 ^ 9 < 2 ^ 63 ->
  0 <= nrRetries req < max_nr_retry p ->
  0 <= backoffTime req < 2 ^ 30 ->
  let computed := if (nrRetries req =? 0) || (backoffTime req =? 0)
                  then 3 else 2 * backoffTime req in
  let newreq := retry_of req subscriber psp dp (fst (time_Now w)) in
  trace_of (retryRequest p req retryAfter subscriber psp dp) w
  = [EvSleep (retryAfter * 10 ^ 9); EvSend newreq]
  /\ backoffTime newreq = computed
  /\ (forall retryAfter0,
        retryAfter0 <= 0 ->
        trace_of (retryRequest p req retryAfter0 subscriber psp dp) w
        = [EvSleep (computed * 10 ^ 9); EvSend newreq])
  /\ (forall retryAfter' w',
        retryAfter' <= 0 -> nrRetries newreq < max_nr_retry p ->
        trace_of (retryRequest p newreq retryAfter' subscriber psp dp) w'
        = [EvSleep (2 * computed * 10 ^ 9);
           EvSend (retry_of newreq subscriber psp dp (fst (time_Now w')))]
        /\ backoffTime (retry_of newreq subscriber psp dp (fst (time_Now w')))
           = 2 * computed).
Proof.
  intros Hra Hfit Hn Hb computed newreq.
  assert (Hc : next_backoffTime req = computed /\ 0 < computed <= 2 ^ 31).
  { unfold next_backoffTime, computed, init_backoff_time.
    destruct ((nrRetries req =? 0) || (backoffTime req =? 0)) eqn:E;
      [split; [reflexivity | lia]|].
    apply orb_false_iff in E as [_ E]. apply Z.eqb_neq in E.
    rewrite int64_shl1_double by lia. lia. }
  destruct Hc as [Hc Hrange].
  assert (Hnew : next_backoffTime newreq = 2 * computed).
  { unfold next_backoffTime. cbn [nrRetries backoffTime retry_of newreq].
    rewrite Hc.
    destruct (Z.eqb_spec (nrRetries req + 1) 0); [lia|].
    destruct (Z.eqb_spec computed 0); [lia|].
    cbn [orb]. apply int64_shl1_double. lia. }
  split_all.
  - unfold trace_of. rewrite retryRequest_run by lia. cbn [fst snd].
    unfold waitTime. destruct (Z.ltb_spec 0 retryAfter); [|lia].
    unfold int64_mul. rewrite wrap64_small by lia. reflexivity.
  - exact Hc.
  - intros ra0 Hra0. unfold trace_of. rewrite retryRequest_run by lia.
    cbn [fst snd]. unfold waitTime. destruct (Z.ltb_spec 0 ra0); [lia|].
    rewrite Hc. unfold int64_mul. rewrite wrap64_small by lia. reflexivity.
  - intros ra' w' Hra' Hn'. split.
    + unfold trace_of. rewrite retryRequest_run by lia. cbn [fst snd].
      unfold waitTime. destruct (Z.ltb_spec 0 ra'); [lia|].
      rewrite Hnew. unfold int64_mul. rewrite wrap64_small by lia.
      reflexivity.
    + exact Hnew.
Qed.

End Attempt.

(** ** One subscriber: resolution and deduplication *)

Lemma skip_repeated_fresh l :
  forall earlier,
    NoDup (map pair_name (skip_repeated earlier l))
    /\ forall n, In n (map pair_name (skip_repeated earlier l)) ->
                 ~ In n earlier.
Proof.
  induction l as [|pd l IH]; intros earlier; cbn [skip_repeated].
  - split; [constructor | intros n []].
  - destruct (IH (dp_Name (pair_DeliveryPoint pd) :: earlier)) as [ND Fr].
    destruct (existsb _ earlier) eqn:E.
    + split; [exact ND|]. intros n Hn Hin. apply (Fr n Hn). now right.
    + cbn [map]. split.
      * constructor; [|exact ND]. intros Hin. apply (Fr _ Hin). now left.
      * intros n [<-|Hn] Hin.
        -- assert (existsb (String.eqb (pair_name pd)) earlier = true);
             [|unfold pair_name in *; congruence].
           apply existsb_exists. exists (pair_name pd).
           split; [exact Hin | apply String.eqb_refl].
        -- apply (Fr n Hn). now right.
Qed.

Lemma skip_repeated_covers l :
  forall earlier pd,
    In pd l ->
    In (pair_name pd) earlier
    \/ In (pair_name pd) (map pair_name (skip_repeated earlier l)).
Proof.
  induction l as [|x l IH]; intros earlier pd; cbn [skip_repeated];
    [intros []|].
  intros [->|Hin].
  - destruct (existsb _ earlier) eqn:E.
    + left. apply existsb_exists in E as (n & Hn & Hne).
      apply String.eqb_eq in Hne. unfold pair_name. now rewrite Hne.
    + right. now left.
  - destruct (IH (dp_Name (pair_DeliveryPoint x) :: earlier) pd Hin)
      as [[Heq|He]|Hs].
    + destruct (existsb _ earlier) eqn:E.
      * left. apply existsb_exists in E as (n & Hn & Hne).
        apply String.eqb_eq in Hne. unfold pair_name in *.
        now rewrite <- Heq, Hne.
      * right. left. exact Heq.
    + now left.
    + right. destruct (existsb _ earlier); [exact Hs | now right].
Qed.

Section Subscriber.

Context {W : Type} `{RT : Runtime W}.

Implicit Types (p : PushProcessor W) (w : W) (req : Request)
  (subscriber : string) (psp : PushServiceProvider) (dp : DeliveryPoint).

Lemma pushit_from acc chked name :
  fold_left (fun acc d => if String.eqb d name then false else acc) chked acc
  = acc && negb (existsb (String.eqb name) chked).
Proof.
  revert acc. induction chked as [|d chked IH]; intros acc; cbn.
  - now rewrite andb_true_r.
  - rewrite IH, (String.eqb_sym name d).
    destruct (String.eqb d name); cbn; [now rewrite andb_false_r | reflexivity].
Qed.

Lemma pushit_spec chked name :
  pushit chked name = negb (existsb (String.eqb name) chked).
Proof. unfold pushit. now rewrite pushit_from. Qed.

Lemma existsb_same_elements {A} (f : A -> bool) (a b : list A) :
  (forall x, In x a <-> In x b) -> existsb f a = existsb f b.
Proof.
  intros H. apply eq_true_iff_eq. rewrite !existsb_exists.
  split; intros (x & Hx & Hf); exists x; split; auto; now apply H.
Qed.

(** The loop of [push] attempts the pairs that [skip_repeated] keeps, when
    the names it has attempted are the names of the pairs it has passed. *)
Lemma attempts_push_pairs p req subscriber pairs :
  forall chked earlier w,
    (forall n, In n chked <-> In n earlier) ->
    attempts (trace_of (push_pairs p req subscriber pairs chked) w)
    = map pair_tuple (skip_repeated earlier pairs).
Proof.
  induction pairs as [|pd pairs IH]; intros chked earlier w Hsame;
    cbn [push_pairs skip_repeated map]; [reflexivity|].
  rewrite pushit_spec, (existsb_same_elements _ _ _ Hsame).
  destruct (existsb _ earlier) eqn:E; cbn [negb].
  - apply IH. intros n. rewrite Hsame. cbn. split; [tauto|].
    intros [<-|Hn]; [|exact Hn].
    apply existsb_exists in E as (x & Hx & Hxe).
    apply String.eqb_eq in Hxe. now subst x.
  - rewrite trace_of_bind, attempts_app, attempts_pushToDeliveryPoint.
    rewrite (returns_unit _ w (returns_attempt _ _ _ _ _)).
    cbn [map app pair_tuple]. f_equal.
    apply IH. intros n. rewrite in_app_iff, Hsame. cbn. tauto.
Qed.

Lemma quiet_push_pairs P p req subscriber pairs :
  (forall psp dp, quiet P (pushToDeliveryPoint p req subscriber psp dp)) ->
  forall chked, quiet P (push_pairs p req subscriber pairs chked).
Proof.
  intros HP. induction pairs as [|pd pairs IH]; intros chked;
    cbn [push_pairs].
  - apply quiet_ret.
  - destruct (pushit _ _); [|apply IH].
    apply quiet_bind; [apply HP | intros _; apply IH].
Qed.

Lemma returns_push_pairs p req subscriber pairs :
  forall chked, returns (push_pairs p req subscriber pairs chked).
Proof.
  induction pairs as [|pd pairs IH]; intros chked; cbn [push_pairs].
  - apply returns_ret.
  - destruct (pushit _ _); [|apply IH].
    apply returns_bind; [apply returns_attempt | intros _; apply IH].
Qed.

Lemma returns_push p req subscriber wg : returns (push p req subscriber wg).
Proof.
  unfold push, logf, Respond. returns_auto. apply returns_push_pairs.
Qed.

Lemma quiet_finish_push p req subscriber wg :
  quiet is_finish (push p req subscriber wg).
Proof.
  unfold push, logf, Respond. quiet_auto.
  apply quiet_push_pairs. intros. apply quiet_finish_attempt.
Qed.

Lemma trace_of_getPairs p service subscriber w :
  trace_of (getPairs p service subscriber) w = [EvGetPairs service subscriber].
Proof.
  unfold trace_of, getPairs.
  now destruct (GetPushServiceProviderDeliveryPointPairs _ _ _ _).
Qed.

Lemma result_of_getPairs p service subscriber w :
  result_of (getPairs p service subscriber) w
  = Ok (fst (GetPushServiceProviderDeliveryPointPairs
               (dbfront p) service subscriber w)).
Proof.
  unfold result_of, getPairs.
  now destruct (GetPushServiceProviderDeliveryPointPairs _ _ _ _).
Qed.

Lemma world_of_getPairs p service subscriber w :
  world_of (getPairs p service subscriber) w
  = snd (GetPushServiceProviderDeliveryPointPairs
           (dbfront p) service subscriber w).
Proof.
  unfold world_of, getPairs.
  now destruct (GetPushServiceProviderDeliveryPointPairs _ _ _ _).
Qed.

(** [push] looks its subscriber up once, first of all. *)
Lemma processed_push p req subscriber wg w :
  processed (trace_of (push p req subscriber wg) w) = [subscriber].
Proof.
  unfold push.
  rewrite trace_of_bind, trace_of_getPairs, result_of_getPairs, processed_app.
  match goal with
  | |- _ ++ processed (trace_of ?k ?w') = _ =>
      assert (Q : quiet is_get_pairs k); [|now rewrite (processed_quiet _ (Q w'))]
  end.
  unfold logf, Respond. quiet_auto.
  apply quiet_push_pairs. intros. apply quiet_get_pairs_attempt.
Qed.

(** C6. [push] attempts the pairs of the resolution in the returned order
    and skips a pair whose target name is that of an earlier pair of the
    list: the attempts are the pairs that [skip_repeated] keeps. No target
    name is attempted twice, every target name of the list is attempted,
    and a list with the target names a, b, a, c (three distinct names)
    gives three attempts, to a, b and c in that order. *)
Theorem push_attempts_each_target_once p req subscriber wg w pairs err w1 :
  GetPushServiceProviderDeliveryPointPairs (dbfront p) (Service req)
      subscriber w = ((pairs, err), w1) ->
  pairs <> [] ->
  let t := trace_of (push p req subscriber wg) w in
  attempts t = map pair_tuple (skip_repeated [] pairs)
  /\ NoDup (target_names (attempts t))
  /\ (forall pd, In pd pairs ->
                 In (dp_Name (pair_DeliveryPoint pd))
                    (target_names (attempts t)))
  /\ (forall a b c,
        a <> b -> a <> c -> b <> c ->
        map (fun pd => dp_Name (pair_DeliveryPoint pd)) pairs = [a; b; a; c] ->
        target_names (attempts t) = [a; b; c]).
Proof.
  intros H Hne t.
  assert (A : attempts t = map pair_tuple (skip_repeated [] pairs)).
  { subst t. unfold push.
    rewrite trace_of_bind, trace_of_getPairs, result_of_getPairs,
      world_of_getPairs, H.
    cbn [fst snd]. rewrite attempts_app, trace_of_defer, attempts_app.
    rewrite trace_of_bind, attempts_app.
    assert (E1 : forall (m : M W unit) w', quiet is_push m ->
                   attempts (trace_of m w') = [])
      by (intros m w' Q; apply attempts_quiet, Q).
    rewrite (E1 (if wg then _ else _)) by (unfold logf; quiet_auto).
    match goal with
    | |- _ ++ (attempts (trace_of ?m ?w') ++ _) ++ _ = _ =>
        rewrite (E1 m) by (unfold logf, Respond; quiet_auto);
        rewrite (returns_unit m w')
          by (unfold logf, Respond; returns_auto)
    end.
    cbn [app]. rewrite app_nil_r.
    destruct pairs as [|pd pairs]; [contradiction|].
    change (len (pd :: pairs) <=? 0) with false. cbv iota.
    apply attempts_push_pairs. tauto. }
  assert (N : target_names (attempts t)
              = map pair_name (skip_repeated [] pairs)).
  { rewrite A. unfold target_names. rewrite map_map. reflexivity. }
  rewrite N. split_all.
  - exact A.
  - apply skip_repeated_fresh.
  - intros pd Hin.
    destruct (skip_repeated_covers pairs [] pd Hin) as [[]|Hs]. exact Hs.
  - intros a b c Hab Hac Hbc Hn.
    destruct pairs as [|p1 [|p2 [|p3 [|p4 [|p5 rest]]]]]; try discriminate Hn.
    injection Hn as H1 H2 H3 H4. cbn [skip_repeated existsb].
    rewrite H1, H2, H3, H4.
    rewrite (String.eqb_refl a).
    apply String.eqb_neq in Hab, Hac, Hbc.
    rewrite (String.eqb_sym b a), Hab, (String.eqb_sym c b), Hbc,
      (String.eqb_sym c a), Hac.
    cbn. unfold pair_name. now rewrite H1, H2, H4.
Qed.

(** C10. When the storage returns an error together with an empty pair
    list, [push] gives two errors to [Respond] for the subscriber, the
    storage error first and the no-device error second, and makes no
    delivery attempt. *)
Theorem storage_error_then_no_device p req subscriber wg w e w1 :
  GetPushServiceProviderDeliveryPointPairs (dbfront p) (Service req)
      subscriber w = (([], Some e), w1) ->
  let t := trace_of (push p req subscriber wg) w in
  responses t
  = [e; errorString ("Subscriber=" ++ subscriber ++ " NoDevice")%string]
  /\ attempts t = []
  /\ count is_respond t = 2%nat.
Proof.
  intros H t. subst t.
  unfold trace_of, push, getPairs, bind, defer, logf, Respond, emit, ret.
  rewrite H. cbn. destruct wg; cbn; split_all; reflexivity.
Qed.

End Subscriber.

(** ** The dispatcher *)

Lemma firstn_plus {A} (a b : nat) (l : list A) :
  firstn (a + b) l = firstn a l ++ firstn b (skipn a l).
Proof.
  revert l. induction a as [|a IH]; intros l; [reflexivity|].
  destruct l as [|x l]; cbn; [now rewrite firstn_nil | now rewrite IH].
Qed.

Lemma length_chunks {A} (k size : nat) (l : list A) :
  List.length (chunks k size l) = k.
Proof.
  revert l. induction k as [|k IH]; intros l; cbn; [reflexivity|].
  now rewrite IH.
Qed.

Lemma concat_chunks {A} (k size : nat) (l : list A) :
  List.concat (chunks k size l) = firstn (k * size) l.
Proof.
  revert l. induction k as [|k IH]; intros l; cbn [chunks List.concat Nat.mul];
    [reflexivity|].
  now rewrite IH, firstn_plus.
Qed.

Lemma nth_chunks {A} (k size : nat) :
  forall (l : list A) i,
    (i < k)%nat -> (k * size <= List.length l)%nat ->
    List.length (nth i (chunks k size l) []) = size.
Proof.
  induction k as [|k IH]; intros l i Hi Hl; [lia|].
  cbn [chunks Nat.mul] in *. destruct i as [|i]; cbn [nth].
  - rewrite length_firstn. lia.
  - apply IH; [lia|]. rewrite length_skipn. lia.
Qed.

Section Dispatcher.

Context {W : Type} `{RT : Runtime W}.

Implicit Types (p : PushProcessor W) (w : W) (req : Request)
  (subscriber : string) (psp : PushServiceProvider) (dp : DeliveryPoint).

Lemma returns_pushBulk p req subs wg : returns (pushBulk p req subs wg).
Proof.
  unfold pushBulk. apply returns_bind.
  - apply returns_for_each. intros sub. apply returns_push.
  - intros _. destruct wg; returns_auto.
Qed.

Lemma quiet_finish_pushBulk p req subs wg :
  quiet is_finish (pushBulk p req subs wg).
Proof.
  unfold pushBulk. apply quiet_bind.
  - apply quiet_for_each. intros sub. apply quiet_finish_push.
  - intros _. destruct wg; quiet_auto.
Qed.

Lemma processed_for_each_push p req subs :
  forall w,
    processed (trace_of (for_each subs (fun sub => push p req sub false)) w)
    = subs.
Proof.
  induction subs as [|sub subs IH]; intros w; cbn [for_each];
    [reflexivity|].
  rewrite trace_of_bind, processed_app, processed_push.
  rewrite (returns_unit _ w (returns_push _ _ _ _)).
  cbn [app]. now rewrite IH.
Qed.

Lemma processed_pushBulk p req subs wg w :
  processed (trace_of (pushBulk p req subs wg) w) = subs.
Proof.
  unfold pushBulk.
  rewrite trace_of_bind, processed_app, processed_for_each_push.
  rewrite (returns_unit _ w)
    by (apply returns_for_each; intros; apply returns_push).
  destruct wg; cbn; now rewrite app_nil_r.
Qed.

Lemma quiet_finish_batch_loop p req per bound fuel :
  forall pos, quiet is_finish (batch_loop fuel p req per bound pos).
Proof.
  induction fuel as [|fuel IH]; intros pos; cbn [batch_loop].
  - apply quiet_out_of_fuel.
  - destruct (pos <? bound); [|apply quiet_ret].
    apply quiet_bind; [quiet_auto | intros _].
    apply quiet_bind; [quiet_auto | intros subs].
    apply quiet_bind; [|intros _; apply IH].
    apply quiet_go; [reflexivity | apply quiet_finish_pushBulk].
Qed.

Lemma quiet_finish_fanout p req : quiet is_finish (Process_fanout p req).
Proof.
  unfold Process_fanout, Process_batched.
  destruct (len (Subscribers req) <=? max_nr_gorountines p).
  - apply quiet_bind; [|intros _; quiet_auto].
    apply quiet_for_each. intros sub.
    apply quiet_bind; [quiet_auto | intros _].
    apply quiet_go; [reflexivity | apply quiet_finish_push].
  - apply quiet_bind; [quiet_auto | intros per].
    apply quiet_bind; [quiet_auto | intros rest].
    apply quiet_bind; [apply quiet_finish_batch_loop | intros pos].
    apply quiet_bind; [|intros _; quiet_auto].
    destruct (pos <? len (Subscribers req)); [|apply quiet_ret].
    apply quiet_bind; [quiet_auto | intros _].
    apply quiet_bind; [quiet_auto | intros subs].
    apply quiet_go; [reflexivity | apply quiet_finish_pushBulk].
Qed.

(** The loop of the batched path, whatever the cap is, ends before its
    fuel does: it stops, or it panics on a slice that is out of range. *)
Lemma batch_loop_fuel p req per bound fuel :
  forall pos w,
    (0 < per -> (Z.to_nat (bound - pos) < fuel)%nat) ->
    (per = 0 -> bound <= pos) ->
    (0 < fuel)%nat ->
    result_of (batch_loop fuel p req per bound pos) w <> OutOfFuel.
Proof.
  induction fuel as [|fuel IH]; intros pos w Hpos Hzero Hfuel; [lia|].
  cbn [batch_loop]. destruct (Z.ltb_spec pos bound) as [Hlt|Hge];
    [|discriminate].
  rewrite result_of_bind. cbn. rewrite result_of_bind.
  unfold slice at 1.
  destruct ((0 <=? pos) && (pos <=? pos + per)
            && (pos + per <=? len (Subscribers req))) eqn:E;
    [|discriminate].
  cbn. rewrite result_of_bind, result_of_go.
  apply andb_prop in E as [E _]. apply andb_prop in E as [_ E].
  apply Z.leb_le in E.
  assert (0 < per) by lia.
  apply IH; lia.
Qed.

(** With a chunk size above 0, the loop starts one [pushBulk] goroutine
    for each of the [k] chunks that lie between [pos] and its bound. *)
Lemma batch_loop_chunks p req size :
  (0 < size)%nat ->
  forall k fuel pos w,
    (k < fuel)%nat ->
    (pos + k * size <= List.length (Subscribers req))%nat ->
    exists t w',
      batch_loop fuel p req (Z.of_nat size) (Z.of_nat (pos + k * size))
                 (Z.of_nat pos) w
      = (Ok (Z.of_nat (pos + k * size)), t, w')
      /\ batches t = chunks k size (skipn pos (Subscribers req))
      /\ processed t = firstn (k * size) (skipn pos (Subscribers req)).
Proof.
  intros Hsize. induction k as [|k IH]; intros fuel pos w Hfuel Hlen;
    (destruct fuel as [|fuel]; [lia|]); cbn [batch_loop].
  - cbn [Nat.mul]. rewrite Nat.add_0_r, Z.ltb_irrefl.
    now exists [], w.
  - cbn [Nat.mul] in *.
    destruct (Z.ltb_spec (Z.of_nat pos) (Z.of_nat (pos + (size + k * size))))
      as [_|]; [|lia].
    unfold bind at 1. cbn. unfold bind at 1, slice.
    replace ((0 <=? Z.of_nat pos)
             && (Z.of_nat pos <=? Z.of_nat pos + Z.of_nat size)
             && (Z.of_nat pos + Z.of_nat size <=? len (Subscribers req)))
      with true
      by (symmetry; rewrite !andb_true_iff, !Z.leb_le; unfold len; lia).
    cbn. replace (Z.to_nat (Z.of_nat pos + Z.of_nat size - Z.of_nat pos))
      with size by lia.
    rewrite Nat2Z.id.
    set (chunk := firstn size (skipn pos (Subscribers req))).
    unfold bind at 1, go.
    pose proof (processed_pushBulk p req chunk true w) as Hbulk.
    unfold trace_of in Hbulk.
    destruct (pushBulk p req chunk true w) as [[rb tb] wb].
    cbn [fst snd] in Hbulk.
    replace (Z.of_nat pos + Z.of_nat size) with (Z.of_nat (pos + size))
      by lia.
    replace (pos + (size + k * size))%nat with (pos + size + k * size)%nat
      by lia.
    destruct (IH fuel (pos + size)%nat wb) as (t & w' & E & Hb & Hp);
      [lia | lia |].
    rewrite E. exists (EvWgAdd :: EvGo (go_pushBulk chunk) tb :: t), w'.
    split; [reflexivity|]. split.
    + change (batches (EvWgAdd :: EvGo (go_pushBulk chunk) tb :: t))
        with (chunk :: batches t).
      rewrite Hb. cbn [chunks]. fold chunk.
      now rewrite skipn_skipn, (Nat.add_comm size pos).
    + change (EvWgAdd :: EvGo (go_pushBulk chunk) tb :: t)
        with ([EvWgAdd] ++ [EvGo (go_pushBulk chunk) tb] ++ t).
      rewrite !processed_app, processed_go, Hbulk, Hp.
      change (processed [EvWgAdd]) with (@nil string). cbn [app].
      rewrite firstn_plus, skipn_skipn. fold chunk.
      now rewrite (Nat.add_comm size pos).
Qed.

(** The batched path under a cap above 0 that the subscribers exceed. *)
Lemma Process_batched_run p req w :
  0 < max_nr_gorountines p < len (Subscribers req) ->
  let N := len (Subscribers req) in
  let cap := max_nr_gorountines p in
  let k := Z.to_nat cap in
  let size := Z.to_nat (N / cap) in
  exists t w',
    Process_batched p req w = (Ok tt, t, w')
    /\ batches t
       = chunks k size (Subscribers req)
         ++ (if N mod cap =? 0 then []
             else [skipn (k * size) (Subscribers req)])
    /\ processed t = Subscribers req.
Proof.
  intros Hcap N cap k size.
  assert (Hdm : N = cap * (N / cap) + N mod cap) by (apply Z.div_mod; lia).
  assert (Hmod : 0 <= N mod cap < cap) by (apply Z.mod_pos_bound; lia).
  assert (Hdiv : 0 < N / cap) by (apply Z.div_str_pos; lia).
  assert (Hsize : (0 < size)%nat) by (unfold size; lia).
  assert (Hks : Z.of_nat (k * size) = cap * (N / cap))
    by (unfold k, size; rewrite Nat2Z.inj_mul, !Z2Nat.id; lia).
  assert (Hlen : Z.of_nat (List.length (Subscribers req)) = N) by reflexivity.
  unfold Process_batched, int_div, int_rem. fold N cap.
  destruct (Z.eqb_spec cap 0) as [|_]; [lia|].
  unfold bind at 1. cbn [ret]. unfold bind at 1. cbn [ret].
  rewrite Z.quot_div_nonneg, Z.rem_mod_nonneg by lia.
  replace (N / cap) with (Z.of_nat size) by (unfold size; lia).
  replace (N - N mod cap) with (Z.of_nat (0 + k * size)) by lia.
  change 0 with (Z.of_nat 0) at 1.
  destruct (batch_loop_chunks p req size Hsize k
              (S (List.length (Subscribers req))) 0%nat w)
    as (t & w1 & E & Hb & Hp); [lia | lia |].
  unfold bind at 1. rewrite E. cbn [skipn] in Hb, Hp.
  cbn [Nat.add] in *.
  destruct (Z.ltb_spec (Z.of_nat (k * size)) N) as [Hlt|Hge].
  - destruct (Z.eqb_spec (N mod cap) 0) as [|_]; [lia|].
    unfold bind at 1 2. cbn [emit]. unfold bind at 1, slice.
    replace ((0 <=? Z.of_nat (k * size)) && (Z.of_nat (k * size) <=? N)
             && (N <=? len (Subscribers req))) with true
      by (symmetry; rewrite !andb_true_iff, !Z.leb_le; unfold len; lia).
    cbn [ret]. rewrite Nat2Z.id.
    rewrite firstn_all2 by (rewrite length_skipn; lia).
    set (rest := skipn (k * size) (Subscribers req)).
    pose proof (processed_pushBulk p req rest true w1) as Hbulk.
    unfold trace_of, go in *.
    destruct (pushBulk p req rest true w1) as [[rb tb] wb].
    cbn [fst snd] in Hbulk. cbn.
    eexists _, _. split; [reflexivity|]. split.
    + rewrite batches_app, Hb. reflexivity.
    + rewrite processed_app, Hp.
      change (EvWgAdd :: EvGo (go_pushBulk rest) tb :: [EvWgWait])
        with ([EvWgAdd] ++ [EvGo (go_pushBulk rest) tb] ++ [EvWgWait]).
      rewrite !processed_app, processed_go, Hbulk.
      change (processed [EvWgAdd]) with (@nil string).
      change (processed [EvWgWait]) with (@nil string).
      cbn [app]. rewrite app_nil_r. apply firstn_skipn.
  - destruct (Z.eqb_spec (N mod cap) 0) as [Hz|]; [|lia].
    unfold bind at 1. cbn.
    eexists _, _. split; [reflexivity|]. split.
    + rewrite batches_app, Hb. reflexivity.
    + rewrite processed_app, Hp, !app_nil_r. apply firstn_all2. lia.
Qed.

(** With more than one subscriber, or without a pre-resolved pair,
    [Process] takes the fan-out paths. *)
Lemma Process_many p req w :
  1 < len (Subscribers req) ->
  Process p req w = defer Finish (Process_fanout p req) w.
Proof.
  intros H. unfold Process.
  destruct (Subscribers req) as [|a [|b l]]; cbn in H; try lia.
  reflexivity.
Qed.

Lemma Process_body_quiet p req :
  quiet is_finish
    (match Subscribers req, req_PushServiceProvider req, req_DeliveryPoint req
     with
     | [subscriber], Some psp, Some dp =>
         pushToDeliveryPoint p req subscriber psp dp
     | _, _, _ => Process_fanout p req
     end).
Proof.
  destruct (Subscribers req) as [|a [|b l]],
    (req_PushServiceProvider req), (req_DeliveryPoint req);
    first [apply quiet_finish_attempt | apply quiet_finish_fanout].
Qed.

Lemma Process_fanout_halts p req w :
  result_of (Process_fanout p req) w <> OutOfFuel.
Proof.
  unfold Process_fanout.
  destruct (Z.leb_spec (len (Subscribers req)) (max_nr_gorountines p)).
  - rewrite (returns_unit _ w); [discriminate|].
    apply returns_bind; [|intros; returns_auto].
    apply returns_for_each. intros sub.
    apply returns_bind; [returns_auto | intros; apply returns_go].
  - unfold Process_batched, int_div, int_rem.
    set (N := len (Subscribers req)) in *.
    set (cap := max_nr_gorountines p) in *.
    assert (HN : 0 <= N) by (unfold N, len; lia).
    destruct (Z.eqb_spec cap 0) as [|Hcap]; [discriminate|].
    rewrite result_of_bind. cbn [result_of world_of ret fst snd].
    rewrite result_of_bind. cbn [result_of world_of ret fst snd].
    rewrite result_of_bind.
    pose proof (Z.quot_rem' N cap) as Hqr.
    pose proof (Z.rem_nonneg N cap Hcap HN) as Hrem.
    pose proof (batch_loop_fuel p req (Z.quot N cap) (N - Z.rem N cap)
                  (S (List.length (Subscribers req))) 0 w) as Hloop.
    fold (result_of
            (batch_loop (S (List.length (Subscribers req))) p req
                        (Z.quot N cap) (N - Z.rem N cap) 0) w).
    destruct (result_of
                (batch_loop (S (List.length (Subscribers req))) p req
                            (Z.quot N cap) (N - Z.rem N cap) 0) w)
      as [pos| |] eqn:E.
    + rewrite result_of_bind.
      destruct (pos <? N).
      * rewrite result_of_bind. cbn [result_of world_of emit fst snd].
        rewrite result_of_bind. unfold slice at 1.
        destruct ((0 <=? pos) && (pos <=? N) && (N <=? len (Subscribers req)));
          [|discriminate].
        cbn [result_of world_of ret fst snd].
        rewrite result_of_go. discriminate.
      * discriminate.
    + discriminate.
    + exfalso. apply Hloop; [unfold N, len in *; lia | nia | lia | reflexivity].
Qed.

Lemma Process_returns p req w :
  0 < max_nr_gorountines p -> result_of (Process p req) w = Ok tt.
Proof.
  intros Hcap. unfold Process. rewrite result_of_defer.
  assert (F : result_of (Process_fanout p req) w = Ok tt).
  { unfold Process_fanout.
    destruct (Z.leb_spec (len (Subscribers req)) (max_nr_gorountines p)).
    - apply returns_unit.
      apply returns_bind; [|intros; returns_auto].
      apply returns_for_each. intros sub.
      apply returns_bind; [returns_auto | intros; apply returns_go].
    - destruct (Process_batched_run p req w) as (t & w' & E & _); [lia|].
      unfold result_of. now rewrite E. }
  destruct (Subscribers req) as [|a [|b l]],
    (req_PushServiceProvider req), (req_DeliveryPoint req);
    try exact F.
  apply returns_unit, returns_attempt.
Qed.

(** C7. Whatever the request and the configuration, [Process] calls
    [Finish] exactly once, as its last action, and no other event of the
    request follows it; [Process] does not loop for ever; and under a cap
    above 0 it returns without a panic. This covers the direct path, the
    path with one goroutine per subscriber and the batched path, and does
    not depend on what the backend and the storage answer. *)
Theorem Process_finishes_exactly_once p req w :
  count is_finish (trace_of (Process p req) w) = 1%nat
  /\ (exists t, trace_of (Process p req) w = t ++ [EvFinish]
                /\ count is_finish t = 0%nat)
  /\ result_of (Process p req) w <> OutOfFuel
  /\ (0 < max_nr_gorountines p -> result_of (Process p req) w = Ok tt).
Proof.
  unfold Process.
  rewrite trace_of_defer, result_of_defer, count_app,
    (Process_body_quiet p req w).
  split_all.
  - reflexivity.
  - eexists. split; [reflexivity | apply Process_body_quiet].
  - destruct (Subscribers req) as [|a [|b l]],
      (req_PushServiceProvider req), (req_DeliveryPoint req);
      try apply Process_fanout_halts.
    rewrite (returns_unit _ w (returns_attempt _ _ _ _ _)). discriminate.
  - intros Hcap. pose proof (Process_returns p req w Hcap) as R.
    unfold Process in R. now rewrite result_of_defer in R.
Qed.

(** C1, as the code has it. When the subscribers exceed a cap above 0,
    [Process] starts one [pushBulk] goroutine for each of [cap] contiguous
    batches of [N / cap] subscribers and, when [N mod cap] is not 0, one
    more goroutine for the [N mod cap] subscribers that are left: the
    remainder is a batch of its own. The batches, in spawn order, make up
    the subscriber list, and every subscriber is handed to [push] once. *)
Theorem Process_batches p req w :
  0 < max_nr_gorountines p < len (Subscribers req) ->
  let N := len (Subscribers req) in
  let cap := max_nr_gorountines p in
  let t := trace_of (Process p req) w in
  result_of (Process p req) w = Ok tt
  /\ List.concat (batches t) = Subscribers req
  /\ len (batches t) = cap + (if N mod cap =? 0 then 0 else 1)
  /\ (forall i, (i < Z.to_nat cap)%nat ->
                len (nth i (batches t) []) = N / cap)
  /\ (N mod cap <> 0 -> len (last (batches t) []) = N mod cap)
  /\ processed t = Subscribers req.
Proof.
  intros Hcap N cap t.
  assert (Hdm : N = cap * (N / cap) + N mod cap) by (apply Z.div_mod; lia).
  assert (Hmod : 0 <= N mod cap < cap) by (apply Z.mod_pos_bound; lia).
  assert (Hdiv : 0 < N / cap) by (apply Z.div_str_pos; lia).
  set (k := Z.to_nat cap). set (size := Z.to_nat (N / cap)).
  assert (Hks : Z.of_nat (k * size) = cap * (N / cap))
    by (unfold k, size; rewrite Nat2Z.inj_mul, !Z2Nat.id; lia).
  assert (Hlen : Z.of_nat (List.length (Subscribers req)) = N) by reflexivity.
  destruct (Process_batched_run p req w Hcap) as (tb & w' & E & Hb & Hp).
  fold N cap k size in Hb.
  assert (Et : t = tb ++ [EvFinish]).
  { unfold t, trace_of. rewrite Process_many by (fold N; lia).
    unfold defer, Process_fanout. fold N cap.
    destruct (Z.leb_spec N cap); [lia|]. now rewrite E. }
  assert (Bt : batches t
               = chunks k size (Subscribers req)
                 ++ (if N mod cap =? 0 then []
                     else [skipn (k * size) (Subscribers req)])).
  { rewrite Et, batches_app, Hb. cbn. now rewrite app_nil_r. }
  split_all.
  - apply Process_returns. lia.
  - rewrite Bt, concat_app, concat_chunks.
    destruct (Z.eqb_spec (N mod cap) 0).
    + cbn. rewrite app_nil_r. apply firstn_all2. lia.
    + cbn. rewrite app_nil_r. apply firstn_skipn.
  - rewrite Bt. unfold len. rewrite length_app, length_chunks.
    destruct (Z.eqb_spec (N mod cap) 0); cbn [List.length]; unfold k; lia.
  - intros i Hi. rewrite Bt, app_nth1 by (rewrite length_chunks; exact Hi).
    unfold len. rewrite nth_chunks; [unfold size; lia | exact Hi | lia].
  - intros Hne. rewrite Bt.
    destruct (Z.eqb_spec (N mod cap) 0); [contradiction|].
    rewrite last_last. unfold len. rewrite length_skipn. lia.
  - rewrite Et, processed_app, Hp. cbn. now rewrite app_nil_r.
Qed.

End Dispatcher.

(** * The theorems at concrete inputs *)

(** C1 at the default cap of 1024 with 1025 subscribers: 1025 batches are
    started, not 1024. *)
Lemma Process_batch_count_counterexample :
  max_nr_gorountines default_processor
    < len (Subscribers (sample_request (many_subscribers 1025)))
  /\ len (batches (trace_of (Process default_processor
                               (sample_request (many_subscribers 1025))) 0))
     <> max_nr_gorountines default_processor.
Proof.
  vm_compute. split; [reflexivity | discriminate].
Qed.

Lemma Process_batches_witness :
  0 < max_nr_gorountines (small_processor 2)
    < len (Subscribers (sample_request five_subscribers))
  /\ batches (trace_of (Process (small_processor 2)
                          (sample_request five_subscribers)) 0)
     = [["a"; "b"]; ["c"; "d"]; ["e"]]
  /\ List.concat (batches (trace_of (Process (small_processor 2)
                                       (sample_request five_subscribers)) 0))
     = five_subscribers.
Proof.
  assert (H : 0 < max_nr_gorountines (small_processor 2)
              < len (Subscribers (sample_request five_subscribers)))
    by (vm_compute; split; reflexivity).
  split; [exact H|]. split; [reflexivity|].
  exact (proj1 (proj2 (Process_batches (small_processor 2)
                         (sample_request five_subscribers) 0 H))).
Defined.

(** C2 at a credential refresh that leaves an error: the provider is
    persisted before anything is given to [Respond]. *)
Lemma persist_precedes_report_counterexample :
  remaining_error refresh_denied = Some (errorString "denied")
  /\ ~ reported_before is_recovery
         (trace_of (pushToDeliveryPoint
                      (sample_processor [] None ("", Some refresh_denied))
                      (sample_request ["alice"]) "alice" sample_psp dpA) 0).
Proof.
  split; [reflexivity|]. intros H.
  apply respond_first_spec in H; [|reflexivity].
  vm_compute in H. discriminate H.
Qed.

Lemma report_precedes_late_recovery_witness :
  responses (trace_of (pushToDeliveryPoint
                         (sample_processor [] None ("", Some refresh_denied))
                         (sample_request ["alice"]) "alice" sample_psp dpA) 0)
  = [errorString "denied"]
  /\ reported_before is_late_recovery
       (trace_of (pushToDeliveryPoint
                    (sample_processor [] None ("", Some refresh_denied))
                    (sample_request ["alice"]) "alice" sample_psp dpA) 0).
Proof.
  pose proof (report_precedes_late_recovery
                (sample_processor [] None ("", Some refresh_denied))
                (sample_request ["alice"]) "alice" sample_psp dpA 0 ""
                refresh_denied (errorString "denied") 0
                eq_refl eq_refl) as (H1 & H2 & _).
  split; [exact H1 | exact H2].
Defined.

Lemma unregistered_never_recycles_witness :
  count is_recycle
    (trace_of (pushToDeliveryPoint
                 (sample_processor [] None ("", Some UnregisteredError))
                 (sample_request ["alice"]) "alice" sample_psp dpA) 0)
  = 0%nat.
Proof.
  exact (proj1 (unregistered_never_recycles
                  (sample_processor [] None ("", Some UnregisteredError))
                  (sample_request ["alice"]) "alice" sample_psp dpA 0 ""
                  UnregisteredError 0 eq_refl eq_refl)).
Defined.

Lemma default_retry_delays_witness :
  nrRetries (sample_request ["alice"]) = 0
  /\ retry_delays 4 default_processor (sample_request ["alice"]) "alice"
                  sample_psp dpA 0
     = [3000000000; 6000000000; 12000000000].
Proof.
  split; [reflexivity|].
  exact (proj1 (default_retry_delays (sample_storage [] None)
                  (sample_backend ("", None)) (sample_request ["alice"])
                  "alice" sample_psp dpA 0 0%nat eq_refl)).
Defined.

(** C5 outside the range of [int64]. A retry-after value of 9223372037
    seconds is above 0, but its count of nanoseconds wraps around: the
    retry sleeps for a negative duration, that is not at all. And a first
    retry with a back-off of 2^62 seconds stores the back-off -2^63, not
    the double. *)
Lemma retry_after_overflow_counterexample :
  0 < 9223372037
  /\ nrRetries (sample_request ["alice"]) < max_nr_retry default_processor
  /\ trace_of (retryRequest default_processor (sample_request ["alice"])
                            9223372037 "alice" sample_psp dpA) 0
     = [EvSleep (-9223372036709551616);
        EvSend (retry_of (sample_request ["alice"]) "alice" sample_psp dpA 0)]
  /\ -9223372036709551616 <> 9223372037 * 10 ^ 9
  /\ backoffTime (retry_of huge_backoff_request "alice" sample_psp dpA 0)
     = - 2 ^ 63.
Proof.
  split_all; try reflexivity. discriminate.
Qed.

(** C5 at a retry-after value of 10 on the first failure: the retry sleeps
    10 seconds and stores a back-off of 3 seconds; when it fails in turn,
    without a retry-after value, the next retry sleeps 6 seconds. *)
Lemma retry_after_overrides_wait_only_witness :
  trace_of (retryRequest default_processor (sample_request ["alice"]) 10
                         "alice" sample_psp dpA) 0
  = [EvSleep 10000000000;
     EvSend (retry_of (sample_request ["alice"]) "alice" sample_psp dpA 0)]
  /\ backoffTime (retry_of (sample_request ["alice"]) "alice" sample_psp dpA 0)
     = 3
  /\ trace_of (retryRequest default_processor
                 (retry_of (sample_request ["alice"]) "alice" sample_psp dpA 0)
                 0 "alice" sample_psp dpA) 1
     = [EvSleep 6000000000;
        EvSend (retry_of
                  (retry_of (sample_request ["alice"]) "alice" sample_psp dpA 0)
                  "alice" sample_psp dpA 1)].
Proof.
  assert (Hn : 0 <= nrRetries (sample_request ["alice"])
               < max_nr_retry default_processor) by (cbn; lia).
  assert (Hb : 0 <= backoffTime (sample_request ["alice"]) < 2 ^ 30)
    by (cbn; lia).
  pose proof (retry_after_overrides_wait_only default_processor
                (sample_request ["alice"]) 10 "alice" sample_psp dpA 0
                eq_refl eq_refl Hn Hb)
    as (H1 & H2 & _ & H4).
  split; [exact H1|]. split; [exact H2|].
  apply (H4 0 1); [lia | cbn; lia].
Defined.

Lemma push_attempts_each_target_once_witness :
  attempts (trace_of (push (sample_processor sample_pairs None ("id-1", None))
                           (sample_request ["alice"]) "alice" false) 0)
  = [(sample_psp, dpA); (sample_psp, dpB); (sample_psp, dpC)].
Proof.
  refine (proj1 (push_attempts_each_target_once
                   (sample_processor sample_pairs None ("id-1", None))
                   (sample_request ["alice"]) "alice" false 0
                   sample_pairs None 0 eq_refl _)).
  discriminate.
Defined.

Lemma unregistered_unsubscribes_once_witness :
  sent (trace_of (pushToDeliveryPoint
                    (sample_processor [] None ("", Some UnregisteredError))
                    (sample_request ["alice"]) "alice" sample_psp dpA) 7)
  = [unsubscribe_request (sample_request ["alice"]) "alice" dpA 7]
  /\ count is_go_retry
       (trace_of (pushToDeliveryPoint
                    (sample_processor [] None ("", Some UnregisteredError))
                    (sample_request ["alice"]) "alice" sample_psp dpA) 7)
     = 0%nat.
Proof.
  split; [reflexivity|].
  exact (proj2 (proj2 (unregistered_unsubscribes_once
                  (sample_processor [] None ("", Some UnregisteredError))
                  (sample_request ["alice"]) "alice" sample_psp dpA 7 ""
                  UnregisteredError 7 eq_refl eq_refl))).
Defined.

Lemma refresh_without_error_is_success_witness :
  responses (trace_of (pushToDeliveryPoint
                         (keeping_processor ("id-1", Some refresh_cleared))
                         (sample_request ["alice"]) "alice" sample_psp dpA) [])
  = []
  /\ world_of (pushToDeliveryPoint
                 (keeping_processor ("id-1", Some refresh_cleared))
                 (sample_request ["alice"]) "alice" sample_psp dpA) []
     = [inr dpB; inl sample_psp'].
Proof.
  pose proof (refresh_without_error_is_success
                (keeping_processor ("id-1", Some refresh_cleared))
                (sample_request ["alice"]) "alice" sample_psp dpA [] "id-1"
                (Some sample_psp') (Some dpB) [] eq_refl)
    as (H1 & _ & _ & _ & _ & _ & H7 & _).
  split; [exact H1 | exact H7].
Defined.

Lemma storage_error_then_no_device_witness :
  responses (trace_of (push (sample_processor []
                               (Some (errorString "db down")) ("", None))
                            (sample_request ["alice"]) "alice" true) 0)
  = [errorString "db down"; errorString "Subscriber=alice NoDevice"].
Proof.
  exact (proj1 (storage_error_then_no_device
                  (sample_processor [] (Some (errorString "db down"))
                                    ("", None))
                  (sample_request ["alice"]) "alice" true 0
                  (errorString "db down") 0 eq_refl)).
Defined.

(** * Further properties *)

(** ** Traces *)

Lemma count_cons P e (t : trace) :
  count P (e :: t) = (count P [e] + count P t)%nat.
Proof. change (e :: t) with ([e] ++ t). apply count_app. Qed.

Lemma sent_app (a b : trace) : sent (a ++ b) = sent a ++ sent b.
Proof. unfold sent. now rewrite flatten_app, flat_map_app. Qed.

Lemma responses_app (a b : trace) :
  responses (a ++ b) = responses a ++ responses b.
Proof. unfold responses. now rewrite flatten_app, flat_map_app. Qed.

Lemma workers_app (a b : trace) : workers (a ++ b) = workers a ++ workers b.
Proof. unfold workers. apply flat_map_app. Qed.

Lemma count_head P e (t : trace) :
  P e = true -> (1 <= count P (e :: t))%nat.
Proof.
  intros H. rewrite count_cons. unfold count, flatten. cbn [flat_map].
  rewrite app_nil_r. destruct e; cbn [flat_event filter]; rewrite H; cbn; lia.
Qed.

(** A trace in which no worker is started anywhere starts none itself. *)
Lemma workers_quiet (t : trace) :
  count is_worker t = 0%nat -> workers t = [].
Proof.
  induction t as [|e t IH]; [reflexivity|]. intros H.
  destruct (is_worker e) eqn:E.
  - pose proof (count_head is_worker e t E). lia.
  - rewrite count_cons in H.
    change (e :: t) with ([e] ++ t). rewrite workers_app, IH by lia.
    rewrite app_nil_r. destruct e; try reflexivity.
    destruct g; try discriminate E. reflexivity.
Qed.

Lemma responses_quiet (t : trace) :
  count is_respond t = 0%nat -> responses t = [].
Proof. apply count_0_flat_map. now intros []. Qed.

Lemma sent_quiet (t : trace) : count is_send t = 0%nat -> sent t = [].
Proof. apply count_0_flat_map. now intros []. Qed.

Section AttemptOutcomes.

Context {W : Type} `{RT : Runtime W}.

Implicit Types (p : PushProcessor W) (w : W) (req : Request)
  (subscriber : string) (psp : PushServiceProvider) (dp : DeliveryPoint).

Ltac destruct_collaborators :=
  repeat match goal with
         | |- context [ModifyPushServiceProvider ?a ?b ?c] =>
             destruct (ModifyPushServiceProvider a b c); cbn
         | |- context [ModifyDeliveryPoint ?a ?b ?c] =>
             destruct (ModifyDeliveryPoint a b c); cbn
         | |- context [time_Now ?a] => destruct (time_Now a); cbn
         | |- context [?a <=? ?b] => destruct (a <=? b); cbn
         end.

(** X1. Every delivery attempt calls the backend once and ends in exactly
    one of four ways. Success: nothing is given to [Respond], the
    notification is released once. Retry: the retry notice is given to
    [Respond], one retry goroutine is started, which sends at most one
    request, and the notification is not released. Unregistered target:
    the error is given to [Respond], one unsubscribe request is sent, the
    notification is not released. Other failure: the error is given to
    [Respond] and the notification is released once. No attempt responds
    twice, releases twice, or releases what a retry still needs. *)
Theorem attempt_has_one_outcome p req subscriber psp dp w :
  let t := trace_of (pushToDeliveryPoint p req subscriber psp dp) w in
  attempts t = [(psp, dp)]
  /\ ((responses t = [] /\ count is_recycle t = 1%nat
       /\ count is_go_retry t = 0%nat /\ sent t = [])
      \/ (responses t = [retry_notice subscriber psp dp]
          /\ count is_recycle t = 0%nat /\ count is_go_retry t = 1%nat
          /\ (List.length (sent t) <= 1)%nat
          /\ Forall (fun r => Action r = ACTION_PUSH) (sent t))
      \/ (responses t = [UnregisteredError]
          /\ count is_recycle t = 0%nat /\ count is_go_retry t = 0%nat
          /\ exists r, sent t = [r] /\ Action r = ACTION_UNSUBSCRIBE)
      \/ (exists e, responses t = [e]
          /\ count is_recycle t = 1%nat /\ count is_go_retry t = 0%nat
          /\ sent t = [])).
Proof.
  intros t. split; [apply attempts_pushToDeliveryPoint|]. subst t.
  unfold trace_of, world_of, result_of; unfold_attempt;
    unfold psm_Push, bind, ret, emit, go, now, modifyPushServiceProvider,
      modifyDeliveryPoint.
  destruct (Push (psm p) psp dp (req_Notification req) w) as [[id err] w1].
  destruct err as [e|]; cbn; [|left; split_all; reflexivity].
  destruct e as [re_psp re_dp other| | |];
    [destruct re_psp as [x|], re_dp as [d|], other as [e'|]; cbn;
     try destruct e' as [? ? ?| | |]; cbn | | |];
    destruct_collaborators;
    first
      [ solve [left; split_all; reflexivity]
      | solve [right; left; split_all;
               first [reflexivity | cbn; lia | repeat constructor]]
      | solve [right; right; left; split_all; try reflexivity;
               eexists; split; reflexivity]
      | solve [right; right; right; eexists; split_all; reflexivity] ].
Qed.

End AttemptOutcomes.

Section RetryAndDirectPath.

Context {W : Type} `{RT : Runtime W}.

Implicit Types (p : PushProcessor W) (w : W) (req : Request)
  (subscriber : string) (psp : PushServiceProvider) (dp : DeliveryPoint).

(** X2. A retryable failure, alone or left by a credential refresh, always
    gives the retry notice to [Respond] and never releases the
    notification. A retry request is sent, exactly one, when the request
    has retries left; when it has none, nothing is sent at all, although
    the caller has received the same notice. *)
Theorem retryable_failure_and_budget
    p req subscriber psp dp w id e retryAfter w1 :
  Push (psm p) psp dp (req_Notification req) w = ((id, Some e), w1) ->
  remaining_error e = Some (RetryError retryAfter) ->
  let t := trace_of (pushToDeliveryPoint p req subscriber psp dp) w in
  responses t = [retry_notice subscriber psp dp]
  /\ count is_recycle t = 0%nat
  /\ (nrRetries req < max_nr_retry p ->
      exists ts, sent t = [retry_of req subscriber psp dp ts])
  /\ (max_nr_retry p <= nrRetries req -> sent t = []).
Proof.
  intros H He t. subst t. run_attempt H.
  destruct e as [re_psp re_dp other| | |]; cbn in He; try discriminate He;
    [subst other; destruct re_psp as [x|], re_dp as [d|]; cbn
    | injection He as <-; cbn];
    repeat match goal with
           | |- context [ModifyPushServiceProvider ?a ?b ?c] =>
               destruct (ModifyPushServiceProvider a b c); cbn
           | |- context [ModifyDeliveryPoint ?a ?b ?c] =>
               destruct (ModifyDeliveryPoint a b c); cbn
           end;
    destruct (Z.leb_spec (max_nr_retry p) (nrRetries req)); cbn;
    repeat match goal with
           | |- context [time_Now ?a] => destruct (time_Now a); cbn
           end;
    (split_all; [reflexivity | reflexivity | |]; intros Hb;
     first [lia | eexists; reflexivity | reflexivity]).
Qed.

Lemma retry_chain_stop ras p req subscriber psp dp w :
  max_nr_retry p <= nrRetries req ->
  retry_chain ras p req subscriber psp dp w = [].
Proof.
  intros H. destruct ras; cbn [retry_chain]; [reflexivity|].
  unfold trace_of. now rewrite retryRequest_exhausted.
Qed.

Lemma retry_chain_step ra ras p req subscriber psp dp w :
  nrRetries req < max_nr_retry p ->
  retry_chain (ra :: ras) p req subscriber psp dp w
  = (int64_mul (waitTime (next_backoffTime req) ra) 1000000000,
     retry_of req subscriber psp dp (fst (time_Now w)))
      :: retry_chain ras p
           (retry_of req subscriber psp dp (fst (time_Now w)))
           subscriber psp dp (snd (time_Now w)).
Proof.
  intros H. cbn [retry_chain]. unfold trace_of, world_of.
  now rewrite retryRequest_run.
Qed.

(** X3. However a chain of retries goes, whatever the retry-after values
    are, it holds at most [max_nr_retry - nrRetries] retries. Every retry
    request of the chain has the id and the notification of the first
    request, the subscriber, the provider and the delivery point of the
    attempt, and a retry count above that of the first request and not
    above [max_nr_retry]. *)
Theorem retry_chain_within_budget ras p req subscriber psp dp :
  forall w,
    (List.length (retry_chain ras p req subscriber psp dp w)
     <= Z.to_nat (max_nr_retry p - nrRetries req))%nat
    /\ Forall (fun dr =>
                 ID (snd dr) = ID req
                 /\ req_Notification (snd dr) = req_Notification req
                 /\ Subscribers (snd dr) = [subscriber]
                 /\ req_PushServiceProvider (snd dr) = Some psp
                 /\ req_DeliveryPoint (snd dr) = Some dp
                 /\ nrRetries req < nrRetries (snd dr) <= max_nr_retry p)
              (retry_chain ras p req subscriber psp dp w).
Proof.
  revert req. induction ras as [|ra ras IH]; intros req w;
    [split; [cbn; lia | constructor]|].
  destruct (Z.le_gt_cases (max_nr_retry p) (nrRetries req)) as [Hge|Hlt].
  - rewrite retry_chain_stop by exact Hge. split; [cbn; lia | constructor].
  - rewrite retry_chain_step by lia.
    set (newreq := retry_of req subscriber psp dp (fst (time_Now w))).
    destruct (IH newreq (snd (time_Now w))) as [Hlen Hall].
    assert (Hn : nrRetries newreq = nrRetries req + 1) by reflexivity.
    split.
    + cbn [List.length]. rewrite Hn in Hlen. lia.
    + constructor.
      * cbn [snd]. rewrite Hn. repeat split; lia.
      * revert Hall. apply Forall_impl. intros [d r]; cbn [snd].
        intros (H1 & H2 & H3 & H4 & H5 & H6). rewrite Hn in H6.
        repeat split; try assumption; lia.
Qed.

Lemma pow2_succ (j : nat) : 2 ^ Z.of_nat (S j) = 2 * 2 ^ Z.of_nat j.
Proof. rewrite Nat2Z.inj_succ. apply Z.pow_succ_r. lia. Qed.

Lemma pow2_bound (j : nat) : (j <= 31)%nat -> 0 < 2 ^ Z.of_nat j <= 2 ^ 31.
Proof.
  intros H. split; [apply Z.pow_pos_nonneg; lia|].
  apply Z.pow_le_mono_r; lia.
Qed.

(** The chain from a request that is the (j+1)-th retry and carries the
    back-off 3 * 2^j, when no retry-after value is given. *)
Lemma retry_chain_doubles p subscriber psp dp n :
  forall j ras req w,
    nrRetries req = Z.of_nat (S j) ->
    backoffTime req = 3 * 2 ^ Z.of_nat j ->
    max_nr_retry p = Z.of_nat (S j + n) ->
    (S j + n <= 32)%nat ->
    (n <= List.length ras)%nat ->
    Forall (fun ra => ra <= 0) ras ->
    map fst (retry_chain ras p req subscriber psp dp w)
    = map (fun k => 3 * 2 ^ Z.of_nat k * 10 ^ 9) (seq (S j) n).
Proof.
  induction n as [|n IH]; intros j ras req w Hn Hb Hmax Hle Hlen Hra.
  - rewrite retry_chain_stop by lia. reflexivity.
  - destruct ras as [|ra ras]; [cbn in Hlen; lia|].
    rewrite retry_chain_step by lia.
    inversion Hra as [|? ? Hra0 Hras]; subst.
    pose proof (pow2_bound j ltac:(lia)) as Hp.
    assert (Hnext : next_backoffTime req = 3 * 2 ^ Z.of_nat (S j)).
    { unfold next_backoffTime. rewrite Hn, Hb.
      destruct (Z.eqb_spec (Z.of_nat (S j)) 0); [lia|].
      destruct (Z.eqb_spec (3 * 2 ^ Z.of_nat j) 0); [lia|].
      cbn [orb]. rewrite int64_shl1_double, pow2_succ; lia. }
    pose proof (pow2_bound (S j) ltac:(lia)) as Hp'.
    cbn [map fst seq]. f_equal.
    + unfold waitTime. destruct (Z.ltb_spec 0 ra); [lia|].
      rewrite Hnext. unfold int64_mul. rewrite wrap64_small; lia.
    + apply (IH (S j)).
      * cbn [nrRetries retry_of]. lia.
      * cbn [backoffTime retry_of]. exact Hnext.
      * lia.
      * lia.
      * cbn in Hlen. lia.
      * exact Hras.
Qed.

(** X4. The back-off is purely exponential. With a retry limit of at most
    32, a chain that starts at a request with no retry behind it, fails
    with a retryable error without retry-after value every time and is
    followed to its end sleeps 3 * 2^k seconds before its k-th retry
    (k = 0, 1, ...), and makes as many retries as the limit allows. *)
Theorem retry_chain_is_exponential ras p req subscriber psp dp w :
  nrRetries req = 0 ->
  0 <= max_nr_retry p <= 32 ->
  (Z.to_nat (max_nr_retry p) <= List.length ras)%nat ->
  Forall (fun ra => ra <= 0) ras ->
  map fst (retry_chain ras p req subscriber psp dp w)
  = map (fun k => 3 * 2 ^ Z.of_nat k * 10 ^ 9)
        (seq 0 (Z.to_nat (max_nr_retry p))).
Proof.
  intros Hn Hmax Hlen Hra.
  destruct (Z.to_nat (max_nr_retry p)) as [|m] eqn:Em.
  - rewrite retry_chain_stop by lia. reflexivity.
  - destruct ras as [|ra ras]; [cbn in Hlen; lia|].
    rewrite retry_chain_step by lia.
    inversion Hra as [|? ? Hra0 Hras]; subst.
    assert (Hnext : next_backoffTime req = 3)
      by (unfold next_backoffTime; now rewrite Hn).
    cbn [map fst seq]. f_equal.
    + unfold waitTime. destruct (Z.ltb_spec 0 ra); [lia|].
      now rewrite Hnext.
    + apply (retry_chain_doubles p subscriber psp dp m 0%nat).
      * cbn [nrRetries retry_of]. lia.
      * cbn [backoffTime retry_of]. rewrite Hnext. reflexivity.
      * lia.
      * lia.
      * cbn in Hlen. lia.
      * exact Hras.
Qed.

(** The direct path of [Process]. *)
Lemma Process_direct_run p req subscriber psp dp w :
  Subscribers req = [subscriber] ->
  req_PushServiceProvider req = Some psp ->
  req_DeliveryPoint req = Some dp ->
  trace_of (Process p req) w
  = EvPush psp dp (req_Notification req)
      :: tl (trace_of (pushToDeliveryPoint p req subscriber psp dp) w)
      ++ [EvFinish]
  /\ attempts (trace_of (Process p req) w) = [(psp, dp)]
  /\ processed (trace_of (Process p req) w) = []
  /\ workers (trace_of (Process p req) w) = []
  /\ result_of (Process p req) w = Ok tt.
Proof.
  intros Hs Hp Hd. unfold Process. rewrite Hs, Hp, Hd.
  rewrite trace_of_defer, result_of_defer.
  change (trace_of Finish _) with [EvFinish].
  assert (Hhead : trace_of (pushToDeliveryPoint p req subscriber psp dp) w
                  = EvPush psp dp (req_Notification req)
                      :: tl (trace_of (pushToDeliveryPoint p req subscriber
                                         psp dp) w)).
  { unfold pushToDeliveryPoint at 1 2.
    now rewrite trace_of_bind, trace_of_psm_Push. }
  split_all.
  - now rewrite Hhead at 1.
  - rewrite attempts_app, attempts_pushToDeliveryPoint. reflexivity.
  - rewrite processed_app,
      (processed_quiet _ (quiet_get_pairs_attempt _ _ _ _ _ w)).
    reflexivity.
  - rewrite workers_app. rewrite workers_quiet; [reflexivity|].
    assert (Q : quiet is_worker
                  (pushToDeliveryPoint p req subscriber psp dp))
      by (unfold_attempt; quiet_auto).
    apply Q.
  - apply returns_unit, returns_attempt.
Qed.

(** X5. A request with exactly one subscriber and a pre-resolved pair is
    handled in the goroutine of [Process] itself: what [Process] does is
    one delivery attempt, to that pair and with the notification of the
    request, and then [Finish], nothing else. There is no storage lookup
    and no worker goroutine, and the wait group is not touched: no [Add],
    no [Done], no [Wait]. *)
Theorem Process_direct_path p req subscriber psp dp w :
  Subscribers req = [subscriber] ->
  req_PushServiceProvider req = Some psp ->
  req_DeliveryPoint req = Some dp ->
  let t := trace_of (Process p req) w in
  t = trace_of (pushToDeliveryPoint p req subscriber psp dp) w ++ [EvFinish]
  /\ attempts t = [(psp, dp)]
  /\ hd_error t = Some (EvPush psp dp (req_Notification req))
  /\ processed t = []
  /\ workers t = []
  /\ count is_wg_add t = 0%nat
  /\ count is_wg_done t = 0%nat
  /\ count is_wg_wait t = 0%nat
  /\ result_of (Process p req) w = Ok tt.
Proof.
  intros Hs Hp Hd t.
  destruct (Process_direct_run p req subscriber psp dp w Hs Hp Hd)
    as (E & A & Pr & Wk & R).
  assert (Et : t = trace_of (pushToDeliveryPoint p req subscriber psp dp) w
                   ++ [EvFinish]).
  { subst t. unfold Process. rewrite Hs, Hp, Hd, trace_of_defer.
    reflexivity. }
  assert (Qa : quiet is_wg_add (pushToDeliveryPoint p req subscriber psp dp))
    by (unfold_attempt; quiet_auto).
  assert (Qd : quiet is_wg_done (pushToDeliveryPoint p req subscriber psp dp))
    by (unfold_attempt; quiet_auto).
  assert (Qw : quiet is_wg_wait (pushToDeliveryPoint p req subscriber psp dp))
    by (unfold_attempt; quiet_auto).
  split_all; try assumption.
  - subst t. now rewrite E.
  - rewrite Et, count_app, Qa. reflexivity.
  - rewrite Et, count_app, Qd. reflexivity.
  - rewrite Et, count_app, Qw. reflexivity.
Qed.

(** X6. The retry scheduler and the dispatcher fit together: whatever
    request [retryRequest] sends on the hand-off channel, [Process] takes
    it on the direct path and makes one attempt, to the provider and the
    delivery point that failed, with the notification of the failed
    request, without asking the storage again. *)
Theorem retry_request_takes_direct_path
    p req retryAfter subscriber psp dp w r w' :
  In (EvSend r) (trace_of (retryRequest p req retryAfter subscriber psp dp) w) ->
  let t := trace_of (Process p r) w' in
  attempts t = [(psp, dp)]
  /\ hd_error t = Some (EvPush psp dp (req_Notification req))
  /\ processed t = []
  /\ workers t = [].
Proof.
  intros Hin t.
  assert (Hr : exists ts, r = retry_of req subscriber psp dp ts).
  { unfold trace_of in Hin.
    destruct (Z.le_gt_cases (max_nr_retry p) (nrRetries req)) as [Hge|Hlt].
    - rewrite retryRequest_exhausted in Hin by exact Hge. destruct Hin.
    - rewrite retryRequest_run in Hin by lia. cbn in Hin.
      destruct Hin as [Hin|[Hin|[]]]; [discriminate Hin|].
      injection Hin as <-. eexists. reflexivity. }
  destruct Hr as [ts ->].
  destruct (Process_direct_run p (retry_of req subscriber psp dp ts)
              subscriber psp dp w' eq_refl eq_refl eq_refl)
    as (E & A & Pr & Wk & _).
  split_all; try assumption. subst t. now rewrite E.
Qed.

End RetryAndDirectPath.

(** ** One subscriber, further *)

Lemma skip_repeated_length l :
  forall earlier,
    (List.length (skip_repeated earlier l) <= List.length l)%nat
    /\ (List.length (skip_repeated earlier l) = List.length l ->
        skip_repeated earlier l = l).
Proof.
  induction l as [|pd l IH]; intros earlier; cbn [skip_repeated];
    [split; [lia | reflexivity]|].
  destruct (IH (dp_Name (pair_DeliveryPoint pd) :: earlier)) as [Hle Heq].
  destruct (existsb _ earlier); cbn [List.length]; split; try lia.
  intros Hl. f_equal. apply Heq. lia.
Qed.

Lemma skip_repeated_distinct l :
  forall earlier,
    NoDup (map pair_name l) ->
    (forall pd, In pd l -> ~ In (pair_name pd) earlier) ->
    skip_repeated earlier l = l.
Proof.
  induction l as [|pd l IH]; intros earlier ND Hfresh; cbn [skip_repeated];
    [reflexivity|].
  cbn [map] in ND. inversion ND as [|? ? Hnotin ND']; subst.
  destruct (existsb _ earlier) eqn:E.
  - exfalso. apply existsb_exists in E as (n & Hn & Hne).
    apply String.eqb_eq in Hne. apply (Hfresh pd); [now left|].
    unfold pair_name. now rewrite Hne.
  - f_equal. apply IH; [exact ND'|].
    intros pd' Hin [Heq|Hin'].
    + apply Hnotin.
      replace (pair_name pd) with (pair_name pd') by (symmetry; exact Heq).
      now apply in_map.
    + apply (Hfresh pd'); [now right | exact Hin'].
Qed.

Section SubscriberOutcomes.

Context {W : Type} `{RT : Runtime W}.

Implicit Types (p : PushProcessor W) (w : W) (req : Request)
  (subscriber : string) (psp : PushServiceProvider) (dp : DeliveryPoint).

(** What [push] does once the storage has answered. *)
Lemma trace_of_push p req subscriber wg w pairs err w1 :
  GetPushServiceProviderDeliveryPointPairs (dbfront p) (Service req)
      subscriber w = ((pairs, err), w1) ->
  exists t_err t_pairs,
    trace_of (push p req subscriber wg) w
    = [EvGetPairs (Service req) subscriber] ++ t_err ++ t_pairs
      ++ deferred_done wg
    /\ responses t_err = match err with Some e => [e] | None => [] end
    /\ attempts t_err = [] /\ count is_recycle t_err = 0%nat
    /\ count is_wg_done t_err = 0%nat
    /\ (pairs = [] ->
        t_pairs
        = [EvLog Warn "[PushFail] Service=%s Subscriber=%s NoSubscriber"
                 [ArgS (Service req); ArgS subscriber];
           EvRespond (errorString ("Subscriber=" ++ subscriber
                                   ++ " NoDevice")%string)])
    /\ (pairs <> [] ->
        t_pairs = trace_of (push_pairs p req subscriber pairs []) w1).
Proof.
  intros H. unfold push.
  rewrite trace_of_bind, trace_of_getPairs, result_of_getPairs,
    world_of_getPairs, H.
  cbn [fst snd]. unfold defer at 1.
  exists (match err with
          | Some e =>
              [EvLog Error
                     "[PushFail] Service=%s Subscriber=%s DatabaseError %v"
                     [ArgS (Service req); ArgS subscriber; ArgE e];
               EvRespond e]
          | None => []
          end).
  destruct pairs as [|pd pairs].
  - eexists. split; [|split_all; try (now destruct err); try reflexivity;
                      intros Hne; now elim Hne].
    unfold trace_of, bind, logf, Respond, emit, ret, deferred_done.
    destruct err as [e|], wg; reflexivity.
  - exists (trace_of (push_pairs p req subscriber (pd :: pairs) []) w1).
    split; [|split_all; try (now destruct err); try reflexivity;
             intros Hne; discriminate Hne].
    change (len (pd :: pairs) <=? 0) with false. cbv iota.
    remember (push_pairs p req subscriber (pd :: pairs) []) as loop.
    unfold trace_of, bind, logf, Respond, emit, ret, deferred_done.
    destruct err as [e|], wg; cbn;
      destruct (loop w1) as [[r t] w2]; cbn; rewrite ?app_nil_r;
      reflexivity.
Qed.

Lemma attempts_push p req subscriber wg w pairs err w1 :
  GetPushServiceProviderDeliveryPointPairs (dbfront p) (Service req)
      subscriber w = ((pairs, err), w1) ->
  attempts (trace_of (push p req subscriber wg) w)
  = map pair_tuple (skip_repeated [] pairs).
Proof.
  intros H.
  destruct (trace_of_push p req subscriber wg w pairs err w1 H)
    as (t_err & t_pairs & E & _ & A1 & _ & _ & Hnil & Hcons).
  assert (A2 : attempts (deferred_done wg) = []) by now destruct wg.
  rewrite E, !attempts_app, A1, A2, app_nil_r. cbn [app].
  destruct pairs as [|pd pairs]; [now rewrite Hnil|].
  rewrite Hcons by discriminate.
  apply attempts_push_pairs. tauto.
Qed.

(** X7. A subscriber whose target names are pairwise distinct gets one
    attempt for every pair of the resolution, in the returned order. When
    two pairs share a target name, fewer attempts are made than there are
    pairs. There are never more attempts than pairs. *)
Theorem push_attempts_all_distinct_targets
    p req subscriber wg w pairs err w1 :
  GetPushServiceProviderDeliveryPointPairs (dbfront p) (Service req)
      subscriber w = ((pairs, err), w1) ->
  let t := trace_of (push p req subscriber wg) w in
  (List.length (attempts t) <= List.length pairs)%nat
  /\ (NoDup (map pair_name pairs) -> attempts t = map pair_tuple pairs)
  /\ (~ NoDup (map pair_name pairs) ->
      (List.length (attempts t) < List.length pairs)%nat).
Proof.
  intros H t. subst t. rewrite (attempts_push _ _ _ _ _ _ _ _ H).
  rewrite length_map.
  destruct (skip_repeated_length pairs []) as [Hle Heq].
  split_all.
  - exact Hle.
  - intros ND. now rewrite skip_repeated_distinct.
  - intros HND.
    destruct (Nat.eq_dec (List.length (skip_repeated [] pairs))
                         (List.length pairs)) as [E|NE]; [|lia].
    exfalso. apply HND. rewrite <- (Heq E). apply skip_repeated_fresh.
Qed.

(** X8. A storage error does not stop the subscriber: when the storage
    returns an error together with pairs, the error is the first thing
    given to [Respond], and the deliveries are attempted all the same,
    beginning with the first pair. *)
Theorem storage_error_does_not_stop_delivery
    p req subscriber wg w pd pairs e w1 :
  GetPushServiceProviderDeliveryPointPairs (dbfront p) (Service req)
      subscriber w = ((pd :: pairs, Some e), w1) ->
  let t := trace_of (push p req subscriber wg) w in
  hd_error (responses t) = Some e
  /\ hd_error (attempts t) = Some (pair_tuple pd).
Proof.
  intros H t. subst t. split.
  - destruct (trace_of_push p req subscriber wg w _ _ w1 H)
      as (t_err & t_pairs & E & R1 & _).
    rewrite E, !responses_app, R1. reflexivity.
  - rewrite (attempts_push _ _ _ _ _ _ _ _ H). reflexivity.
Qed.

(** An attempt that the backend accepts. *)
Lemma attempt_succeeds p req subscriber psp dp w :
  snd (fst (Push (psm p) psp dp (req_Notification req) w)) = None ->
  responses (trace_of (pushToDeliveryPoint p req subscriber psp dp) w) = []
  /\ count is_recycle
       (trace_of (pushToDeliveryPoint p req subscriber psp dp) w) = 1%nat.
Proof.
  intros H. unfold trace_of, pushToDeliveryPoint, psm_Push, bind.
  destruct (Push (psm p) psp dp (req_Notification req) w) as [[id err] w1].
  cbn in H. subst err. split; reflexivity.
Qed.

Lemma push_pairs_all_succeed p req subscriber pairs :
  (forall psp dp n w, snd (fst (Push (psm p) psp dp n w)) = None) ->
  forall chked w,
    responses (trace_of (push_pairs p req subscriber pairs chked) w) = []
    /\ count is_recycle (trace_of (push_pairs p req subscriber pairs chked) w)
       = List.length
           (attempts (trace_of (push_pairs p req subscriber pairs chked) w)).
Proof.
  intros Hok. induction pairs as [|pd pairs IH]; intros chked w;
    cbn [push_pairs]; [split; reflexivity|].
  destruct (pushit _ _); [|apply IH].
  rewrite trace_of_bind, (returns_unit _ w (returns_attempt _ _ _ _ _)).
  rewrite responses_app, count_app, attempts_app, length_app,
    attempts_pushToDeliveryPoint.
  destruct (attempt_succeeds p req subscriber (pair_PushServiceProvider pd)
              (pair_DeliveryPoint pd) w (Hok _ _ _ _)) as [R C].
  destruct (IH (chked ++ [dp_Name (pair_DeliveryPoint pd)])
              (world_of (pushToDeliveryPoint p req subscriber
                           (pair_PushServiceProvider pd)
                           (pair_DeliveryPoint pd)) w)) as [R' C'].
  rewrite R, R', C, C'. split; reflexivity.
Qed.

(** X9. When the storage answers without error and with at least one
    pair, and the backend accepts every push, [push] never calls
    [Respond]: success is silent. The notification of the request is
    released once for every delivery attempt, that is once for every
    distinct target of the subscriber. *)
Theorem push_all_succeed_is_silent p req subscriber wg w pairs w1 :
  GetPushServiceProviderDeliveryPointPairs (dbfront p) (Service req)
      subscriber w = ((pairs, None), w1) ->
  pairs <> [] ->
  (forall psp dp n w', snd (fst (Push (psm p) psp dp n w')) = None) ->
  let t := trace_of (push p req subscriber wg) w in
  responses t = []
  /\ count is_recycle t = List.length (attempts t)
  /\ (1 <= List.length (attempts t))%nat.
Proof.
  intros H Hne Hok t.
  destruct (trace_of_push p req subscriber wg w pairs None w1 H)
    as (t_err & t_pairs & E & R1 & A1 & C1 & _ & _ & Hcons).
  rewrite (Hcons Hne) in E.
  assert (T2 : responses (deferred_done wg) = []
               /\ attempts (deferred_done wg) = []
               /\ count is_recycle (deferred_done wg) = 0%nat)
    by now destruct wg.
  destruct pairs as [|pd pairs]; [contradiction|].
  destruct (push_pairs_all_succeed p req subscriber (pd :: pairs) Hok [] w1)
    as [R C].
  assert (A : (1 <= List.length
                      (attempts (trace_of (push_pairs p req subscriber
                                             (pd :: pairs) []) w1)))%nat).
  { rewrite (attempts_push_pairs p req subscriber (pd :: pairs) [] [] w1)
      by tauto.
    cbn. lia. }
  subst t. rewrite E.
  rewrite !responses_app, !count_app, !attempts_app, !length_app.
  destruct T2 as (R2 & A2 & C2).
  rewrite R1, R2, R, C1, C2, C, A1, A2.
  change (count is_recycle [EvGetPairs (Service req) subscriber])
    with 0%nat.
  change (attempts [EvGetPairs (Service req) subscriber])
    with (@nil (PushServiceProvider * DeliveryPoint)).
  cbn [app List.length].
  split_all; [reflexivity | lia | lia].
Qed.

(** X14. A subscriber without device: when the storage returns no pair
    and no error, [push] gives the no-device error to [Respond], once,
    makes no delivery attempt and does not release the notification. *)
Theorem push_no_device p req subscriber wg w w1 :
  GetPushServiceProviderDeliveryPointPairs (dbfront p) (Service req)
      subscriber w = (([], None), w1) ->
  let t := trace_of (push p req subscriber wg) w in
  responses t
  = [errorString ("Subscriber=" ++ subscriber ++ " NoDevice")%string]
  /\ attempts t = []
  /\ count is_recycle t = 0%nat
  /\ world_of (push p req subscriber wg) w = w1.
Proof.
  intros H t. subst t.
  unfold trace_of, world_of, push, getPairs, bind, defer, logf, Respond,
    emit, ret.
  rewrite H. cbn. destruct wg; cbn; split_all; reflexivity.
Qed.

End SubscriberOutcomes.

(** ** The dispatcher, further *)

Lemma balanced_nil : balanced [].
Proof. split; reflexivity. Qed.

Lemma balanced_app (a b : trace) :
  balanced a -> balanced b -> balanced (a ++ b).
Proof.
  unfold balanced. intros [A1 A2] [B1 B2].
  rewrite !count_app, workers_app, length_app. lia.
Qed.

Lemma balanced_worker g (tb : trace) :
  is_worker (EvGo g tb) = true ->
  count is_wg_add tb = 0%nat -> count is_wg_done tb = 1%nat ->
  balanced [EvWgAdd; EvGo g tb].
Proof.
  intros Hg Ha Hd. unfold balanced.
  rewrite (count_cons is_wg_add EvWgAdd), (count_cons is_wg_done EvWgAdd).
  rewrite !count_go by reflexivity.
  rewrite Ha, Hd. destruct g; try discriminate Hg; split; reflexivity.
Qed.

Lemma follows_up_spec (req r : Request) :
  follows_up req r = true ->
  ID r = ID req
  /\ Service r = Service req
  /\ RequestSenderAddr r = RequestSenderAddr req
  /\ (exists s, Subscribers r = [s])
  /\ ((Action r = ACTION_PUSH /\ direct r = true)
      \/ Action r = ACTION_UNSUBSCRIBE).
Proof.
  unfold follows_up. rewrite !andb_true_iff, !String.eqb_eq, Nat.eqb_eq.
  intros ((((H1 & H2) & H3) & H4) & H5). split_all; try assumption.
  - destruct (Subscribers r) as [|s [|s' l]]; try discriminate H4.
    now exists s.
  - destruct (Action r); try discriminate H5; [left; now split | now right].
Qed.

Lemma sent_follow_up req (t : trace) :
  count (stray_send req) t = 0%nat ->
  Forall (fun r => follows_up req r = true) (sent t).
Proof.
  unfold count, sent. generalize (flatten t). intros l.
  induction l as [|e l IH]; cbn [filter flat_map]; [constructor|].
  destruct (stray_send req e) eqn:E; [discriminate|]. intros H.
  destruct e; cbn [app]; try (apply IH; exact H).
  constructor; [|apply IH; exact H].
  cbn in E. now apply negb_false_iff in E.
Qed.

Section DispatcherOutcomes.

Context {W : Type} `{RT : Runtime W}.

Implicit Types (p : PushProcessor W) (w : W) (req : Request)
  (subscriber : string) (psp : PushServiceProvider) (dp : DeliveryPoint).

Lemma bind_ok_inv {A B} (m : M W A) (f : A -> M W B) w b :
  result_of (bind m f) w = Ok b ->
  exists a, result_of m w = Ok a /\ result_of (f a) (world_of m w) = Ok b.
Proof.
  rewrite result_of_bind. destruct (result_of m w) as [a| |];
    [eauto | discriminate | discriminate].
Qed.

Lemma slice_silent {A} (l : list A) lo hi w :
  trace_of (@slice W A l lo hi) w = [] /\ world_of (@slice W A l lo hi) w = w.
Proof.
  unfold slice. now destruct ((0 <=? lo) && (lo <=? hi) && (hi <=? len l)).
Qed.

Lemma int_div_silent a b w :
  trace_of (@int_div W a b) w = [] /\ world_of (@int_div W a b) w = w.
Proof. unfold int_div. now destruct (b =? 0). Qed.

Lemma int_rem_silent a b w :
  trace_of (@int_rem W a b) w = [] /\ world_of (@int_rem W a b) w = w.
Proof. unfold int_rem. now destruct (b =? 0). Qed.

(** *** The wait group *)

Lemma quiet_wg_add_attempt p req subscriber psp dp :
  quiet is_wg_add (pushToDeliveryPoint p req subscriber psp dp).
Proof. unfold_attempt. quiet_auto. Qed.

Lemma quiet_wg_done_attempt p req subscriber psp dp :
  quiet is_wg_done (pushToDeliveryPoint p req subscriber psp dp).
Proof. unfold_attempt. quiet_auto. Qed.

Lemma quiet_wg_add_push p req subscriber wg :
  quiet is_wg_add (push p req subscriber wg).
Proof.
  unfold push, logf, Respond. quiet_auto.
  apply quiet_push_pairs. intros. apply quiet_wg_add_attempt.
Qed.

Lemma count_wg_done_push p req subscriber wg w :
  count is_wg_done (trace_of (push p req subscriber wg) w)
  = if wg then 1%nat else 0%nat.
Proof.
  destruct (GetPushServiceProviderDeliveryPointPairs (dbfront p)
              (Service req) subscriber w) as [[pairs err] w1] eqn:H.
  destruct (trace_of_push p req subscriber wg w pairs err w1 H)
    as (t_err & t_pairs & E & _ & _ & _ & D & Hnil & Hcons).
  rewrite E, !count_app, D.
  change (count is_wg_done [EvGetPairs (Service req) subscriber])
    with 0%nat.
  assert (Hmid : count is_wg_done t_pairs = 0%nat).
  { destruct pairs as [|pd pairs]; [now rewrite Hnil|].
    rewrite Hcons by discriminate.
    apply quiet_push_pairs. intros. apply quiet_wg_done_attempt. }
  rewrite Hmid. now destruct wg.
Qed.

Lemma quiet_wg_add_pushBulk p req subs wg :
  quiet is_wg_add (pushBulk p req subs wg).
Proof.
  unfold pushBulk. apply quiet_bind.
  - apply quiet_for_each. intros sub. apply quiet_wg_add_push.
  - intros _. destruct wg; quiet_auto.
Qed.

Lemma count_wg_done_pushBulk p req subs wg w :
  count is_wg_done (trace_of (pushBulk p req subs wg) w)
  = if wg then 1%nat else 0%nat.
Proof.
  unfold pushBulk. rewrite trace_of_bind, count_app.
  assert (Q : quiet is_wg_done
                (for_each subs (fun sub => push p req sub false))).
  { apply quiet_for_each. intros sub w'. apply count_wg_done_push. }
  rewrite (Q w), (returns_unit _ w)
    by (apply returns_for_each; intros; apply returns_push).
  now destruct wg.
Qed.

(** The loop of the path with one goroutine per subscriber. *)
Lemma per_subscriber_run p req subs :
  forall w,
    let t := trace_of (for_each subs
                         (fun sub => emit EvWgAdd ;;
                                     go (go_push sub) (push p req sub true)))
                      w in
    workers t = map (fun s => [s]) subs
    /\ batches t = []
    /\ processed t = subs
    /\ balanced t.
Proof.
  induction subs as [|sub subs IH]; intros w; cbn [for_each];
    [split_all; [reflexivity | reflexivity | reflexivity | apply balanced_nil]|].
  cbv zeta. rewrite trace_of_bind.
  assert (E1 : trace_of (emit EvWgAdd ;;
                         go (go_push sub) (push p req sub true)) w
               = [EvWgAdd; EvGo (go_push sub)
                                (trace_of (push p req sub true) w)]).
  { rewrite trace_of_bind. cbn [result_of emit fst snd world_of].
    now rewrite trace_of_go. }
  assert (E2 : result_of (emit EvWgAdd ;;
                          go (go_push sub) (push p req sub true)) w
               = Ok tt).
  { rewrite result_of_bind. cbn [result_of emit fst snd world_of].
    apply result_of_go. }
  rewrite E1, E2.
  match goal with
  | |- context [for_each subs ?f] =>
      match goal with
      | |- context [trace_of (for_each subs f) ?w'] =>
          destruct (IH w') as (Wk & Bt & Pr & Bal)
      end
  end.
  rewrite workers_app, batches_app, processed_app, Wk, Bt, Pr.
  split_all; try reflexivity.
  - change (processed [EvWgAdd; EvGo (go_push sub)
                                     (trace_of (push p req sub true) w)])
      with (processed ([EvWgAdd]
                       ++ [EvGo (go_push sub)
                                (trace_of (push p req sub true) w)])).
    rewrite processed_app, processed_go, processed_push. reflexivity.
  - apply balanced_app; [|exact Bal].
    apply balanced_worker; [reflexivity | apply quiet_wg_add_push|].
    apply count_wg_done_push.
Qed.

(** The loop of the batched path, when it is left without a panic. *)
Lemma batch_loop_balanced p req per bound fuel :
  forall pos w n,
    result_of (batch_loop fuel p req per bound pos) w = Ok n ->
    balanced (trace_of (batch_loop fuel p req per bound pos) w)
    /\ workers (trace_of (batch_loop fuel p req per bound pos) w)
       = batches (trace_of (batch_loop fuel p req per bound pos) w).
Proof.
  induction fuel as [|fuel IH]; intros pos w n H; cbn [batch_loop] in *;
    [discriminate H|].
  destruct (pos <? bound);
    [|split; [apply balanced_nil | reflexivity]].
  apply bind_ok_inv in H as ([] & _ & H).
  apply bind_ok_inv in H as (subs & Hs & H).
  apply bind_ok_inv in H as ([] & _ & H).
  rewrite trace_of_bind. cbn [result_of world_of trace_of emit fst snd] in *.
  rewrite trace_of_bind. fold (result_of (slice (Subscribers req) pos
                                            (pos + per)) w) in *.
  destruct (slice_silent (Subscribers req) pos (pos + per) w) as [St Sw].
  unfold trace_of, world_of, result_of in St, Sw, Hs, H |- *.
  rewrite St, Sw in *. rewrite Hs. cbn [app].
  fold (trace_of (go (go_pushBulk subs) (pushBulk p req subs true) ;;
                  batch_loop fuel p req per bound (pos + per)) w).
  rewrite trace_of_bind, trace_of_go, result_of_go.
  fold (world_of (go (go_pushBulk subs) (pushBulk p req subs true)) w) in H.
  fold (result_of (batch_loop fuel p req per bound (pos + per))
          (world_of (go (go_pushBulk subs) (pushBulk p req subs true)) w))
    in H.
  destruct (IH _ _ _ H) as [Bal Wk].
  split.
  - apply (balanced_app [EvWgAdd; EvGo (go_pushBulk subs) _]);
      [|exact Bal].
    apply balanced_worker; [reflexivity | apply quiet_wg_add_pushBulk|].
    apply count_wg_done_pushBulk.
  - change (EvWgAdd :: ?a ++ ?b) with ([EvWgAdd] ++ a ++ b).
    rewrite !workers_app, !batches_app, Wk. reflexivity.
Qed.

(** One worker of the batched path: the counter is raised, the slice is
    taken, the goroutine is started. *)
Lemma spawn_bulk_balanced p req lo hi w :
  result_of (emit EvWgAdd ;;
             subs <- slice (Subscribers req) lo hi ;;
             go (go_pushBulk subs) (pushBulk p req subs true)) w = Ok tt ->
  let t := trace_of (emit EvWgAdd ;;
                     subs <- slice (Subscribers req) lo hi ;;
                     go (go_pushBulk subs) (pushBulk p req subs true)) w in
  balanced t /\ workers t = batches t.
Proof.
  intros H t. subst t.
  apply bind_ok_inv in H as ([] & _ & H).
  apply bind_ok_inv in H as (subs & Hs & _).
  rewrite trace_of_bind. cbn [result_of world_of trace_of emit fst snd] in *.
  fold (trace_of (subs <- slice (Subscribers req) lo hi ;;
                  go (go_pushBulk subs) (pushBulk p req subs true)) w).
  fold (result_of (slice (Subscribers req) lo hi) w) in Hs.
  destruct (slice_silent (Subscribers req) lo hi w) as [St Sw].
  rewrite trace_of_bind, St, Sw, Hs, trace_of_go. cbn [app].
  split; [|reflexivity].
  apply balanced_worker; [reflexivity | apply quiet_wg_add_pushBulk|].
  apply count_wg_done_pushBulk.
Qed.

Lemma Process_batched_balanced p req w :
  result_of (Process_batched p req) w = Ok tt ->
  balanced (trace_of (Process_batched p req) w)
  /\ workers (trace_of (Process_batched p req) w)
     = batches (trace_of (Process_batched p req) w).
Proof.
  intros H. unfold Process_batched in *.
  destruct (int_div_silent (len (Subscribers req)) (max_nr_gorountines p) w)
    as [T1 W1].
  destruct (int_rem_silent (len (Subscribers req)) (max_nr_gorountines p) w)
    as [T2 W2].
  apply bind_ok_inv in H as (per & Hper & H). rewrite W1 in H.
  apply bind_ok_inv in H as (rest & Hrest & H). rewrite W2 in H.
  apply bind_ok_inv in H as (pos & Hpos & H).
  apply bind_ok_inv in H as ([] & Htail & _).
  rewrite trace_of_bind, Hper, T1, W1. cbn [app].
  rewrite trace_of_bind, Hrest, T2, W2. cbn [app].
  rewrite trace_of_bind, Hpos.
  destruct (batch_loop_balanced _ _ _ _ _ _ _ _ Hpos) as [Bal Wk].
  rewrite trace_of_bind, Htail.
  change (trace_of (emit EvWgWait) _) with [EvWgWait].
  rewrite !workers_app, !batches_app, Wk.
  destruct (pos <? len (Subscribers req)).
  - destruct (spawn_bulk_balanced _ _ _ _ _ Htail) as [Bal' Wk'].
    rewrite Wk'. split; [|reflexivity].
    repeat apply balanced_app; try assumption. split; reflexivity.
  - split; [|reflexivity].
    repeat apply balanced_app; try assumption; split; reflexivity.
Qed.

Lemma Process_not_direct p req :
  direct req = false -> Process p req = defer Finish (Process_fanout p req).
Proof.
  unfold direct, Process.
  destruct (Subscribers req) as [|a [|b l]],
    (req_PushServiceProvider req), (req_DeliveryPoint req);
    intros H; try reflexivity; discriminate H.
Qed.

Lemma fanout_per_subscriber p req w :
  len (Subscribers req) <= max_nr_gorountines p ->
  trace_of (Process_fanout p req) w
  = trace_of (for_each (Subscribers req)
                (fun sub => emit EvWgAdd ;;
                            go (go_push sub) (push p req sub true))) w
    ++ [EvWgWait].
Proof.
  intros H. unfold Process_fanout.
  destruct (Z.leb_spec (len (Subscribers req)) (max_nr_gorountines p));
    [|lia].
  rewrite trace_of_bind, (returns_unit _ w); [reflexivity|].
  apply returns_for_each. intros sub.
  apply returns_bind; [apply returns_emit | intros; apply returns_go].
Qed.

(** X10. When the subscribers do not exceed the cap (and the request is not
    a direct one), [Process] starts one [push] goroutine for each
    subscriber, in the order of the list, and no [pushBulk] goroutine;
    each subscriber is looked up once; [Process] then waits and calls
    [Finish], in that order, as its last two actions. *)
Theorem Process_one_goroutine_per_subscriber p req w :
  direct req = false ->
  len (Subscribers req) <= max_nr_gorountines p ->
  let t := trace_of (Process p req) w in
  workers t = map (fun s => [s]) (Subscribers req)
  /\ batches t = []
  /\ processed t = Subscribers req
  /\ exists t0, t = t0 ++ [EvWgWait; EvFinish].
Proof.
  intros Hd Hcap t. subst t.
  rewrite Process_not_direct by exact Hd.
  rewrite trace_of_defer, fanout_per_subscriber by exact Hcap.
  change (trace_of Finish _) with [EvFinish].
  destruct (per_subscriber_run p req (Subscribers req) w)
    as (Wk & Bt & Pr & _).
  rewrite !workers_app, !batches_app, !processed_app, Wk, Bt, Pr.
  split_all.
  - cbn. now rewrite !app_nil_r.
  - reflexivity.
  - cbn. now rewrite !app_nil_r.
  - eexists. rewrite <- app_assoc. reflexivity.
Qed.

(** X11. Under a cap above 0, a request that is not a direct one is spread
    over at most cap + 1 worker goroutines ([push] or [pushBulk]); the
    subscribers given to the workers, in spawn order, make up the
    subscriber list, and each subscriber is looked up once. The wait
    group is balanced: it is raised once for each worker started and
    lowered once by each worker, so that the wait of [Process] ends. *)
Theorem Process_workers_cover_subscribers p req w :
  0 < max_nr_gorountines p ->
  direct req = false ->
  let t := trace_of (Process p req) w in
  List.concat (workers t) = Subscribers req
  /\ processed t = Subscribers req
  /\ len (workers t) <= max_nr_gorountines p + 1
  /\ balanced t.
Proof.
  intros Hcap Hd t. subst t.
  rewrite Process_not_direct by exact Hd. rewrite trace_of_defer.
  change (trace_of Finish _) with [EvFinish].
  assert (G : let t := trace_of (Process_fanout p req) w in
              List.concat (workers t) = Subscribers req
              /\ processed t = Subscribers req
              /\ len (workers t) <= max_nr_gorountines p + 1
              /\ balanced t).
  { destruct (Z.le_gt_cases (len (Subscribers req)) (max_nr_gorountines p))
      as [Hle|Hgt].
    - cbv zeta. rewrite fanout_per_subscriber by exact Hle.
      destruct (per_subscriber_run p req (Subscribers req) w)
        as (Wk & Bt & Pr & Bal).
      rewrite !workers_app, !processed_app, Wk, Pr.
      change (workers [EvWgWait]) with (@nil (list string)).
      change (processed [EvWgWait]) with (@nil string).
      rewrite !app_nil_r. split_all.
      + clear. induction (Subscribers req) as [|s l IH]; cbn;
          [reflexivity | now rewrite IH].
      + reflexivity.
      + unfold len in *. rewrite length_map. lia.
      + apply balanced_app; [exact Bal | split; reflexivity].
    - destruct (Process_batched_run p req w) as (t & w' & E & Hb & Hp);
        [lia|].
      assert (Ef : Process_fanout p req w = (Ok tt, t, w')).
      { unfold Process_fanout.
        destruct (Z.leb_spec (len (Subscribers req))
                    (max_nr_gorountines p)); [lia | exact E]. }
      assert (R : result_of (Process_batched p req) w = Ok tt)
        by (unfold result_of; now rewrite E).
      destruct (Process_batched_balanced p req w R) as [Bal Wk].
      unfold trace_of in *. rewrite E in Bal, Wk. rewrite Ef.
      cbn [fst snd] in *. rewrite Wk, Hb.
      set (N := len (Subscribers req)) in *.
      set (cap := max_nr_gorountines p) in *.
      assert (Hdm : N = cap * (N / cap) + N mod cap)
        by (apply Z.div_mod; lia).
      assert (Hmod : 0 <= N mod cap < cap) by (apply Z.mod_pos_bound; lia).
      assert (Hdiv : 0 < N / cap) by (apply Z.div_str_pos; lia).
      assert (Hks : Z.of_nat (Z.to_nat cap * Z.to_nat (N / cap))
                    = cap * (N / cap))
        by (rewrite Nat2Z.inj_mul, !Z2Nat.id; lia).
      assert (Hlen : Z.of_nat (List.length (Subscribers req)) = N)
        by reflexivity.
      split_all.
      + rewrite concat_app, concat_chunks.
        destruct (Z.eqb_spec (N mod cap) 0); cbn; rewrite app_nil_r;
          [apply firstn_all2; lia | apply firstn_skipn].
      + exact Hp.
      + unfold len. rewrite length_app, length_chunks.
        destruct (Z.eqb_spec (N mod cap) 0); cbn [List.length]; lia.
      + exact Bal. }
  cbv zeta in G. destruct G as (G1 & G2 & G3 & G4).
  rewrite workers_app, processed_app.
  change (workers [EvFinish]) with (@nil (list string)).
  change (processed [EvFinish]) with (@nil string).
  rewrite !app_nil_r. split_all; try assumption.
  apply balanced_app; [exact G4 | split; reflexivity].
Qed.

(** X12. A request without subscribers is finished without a word to the
    caller: whatever the cap is, [Process] only waits on the empty wait
    group and calls [Finish]; nothing is looked up, nothing is given to
    [Respond]. *)
Theorem Process_no_subscribers p req w :
  Subscribers req = [] ->
  Process p req w = (Ok tt, [EvWgWait; EvFinish], w).
Proof.
  intros Hs. unfold Process, Process_fanout, Process_batched. rewrite Hs.
  cbn [len List.length Z.of_nat].
  destruct (Z.leb_spec 0 (max_nr_gorountines p)); [reflexivity|].
  unfold int_div, int_rem.
  destruct (Z.eqb_spec (max_nr_gorountines p) 0); [lia|].
  reflexivity.
Qed.

(** *** What is put on the hand-off channel *)

Lemma quiet_stray_attempt p req subscriber psp dp :
  quiet (stray_send req) (pushToDeliveryPoint p req subscriber psp dp).
Proof.
  unfold_attempt. quiet_auto.
  all: apply quiet_emit; [|discriminate].
  all: unfold stray_send, follows_up, direct; cbn.
  all: now rewrite !String.eqb_refl.
Qed.

Lemma quiet_stray_push p req subscriber wg :
  quiet (stray_send req) (push p req subscriber wg).
Proof.
  unfold push, logf, Respond. quiet_auto.
  apply quiet_push_pairs. intros. apply quiet_stray_attempt.
Qed.

Lemma quiet_stray_pushBulk p req subs wg :
  quiet (stray_send req) (pushBulk p req subs wg).
Proof.
  unfold pushBulk. apply quiet_bind.
  - apply quiet_for_each. intros sub. apply quiet_stray_push.
  - intros _. destruct wg; quiet_auto.
Qed.

Lemma quiet_stray_batch_loop p req per bound fuel :
  forall pos, quiet (stray_send req) (batch_loop fuel p req per bound pos).
Proof.
  induction fuel as [|fuel IH]; intros pos; cbn [batch_loop].
  - apply quiet_out_of_fuel.
  - destruct (pos <? bound); [|apply quiet_ret].
    apply quiet_bind; [quiet_auto | intros _].
    apply quiet_bind; [quiet_auto | intros subs].
    apply quiet_bind; [|intros _; apply IH].
    apply quiet_go; [reflexivity | apply quiet_stray_pushBulk].
Qed.

Lemma quiet_stray_fanout p req :
  quiet (stray_send req) (Process_fanout p req).
Proof.
  unfold Process_fanout, Process_batched.
  destruct (len (Subscribers req) <=? max_nr_gorountines p).
  - apply quiet_bind; [|intros _; quiet_auto].
    apply quiet_for_each. intros sub.
    apply quiet_bind; [quiet_auto | intros _].
    apply quiet_go; [reflexivity | apply quiet_stray_push].
  - apply quiet_bind; [quiet_auto | intros per].
    apply quiet_bind; [quiet_auto | intros rest].
    apply quiet_bind; [apply quiet_stray_batch_loop | intros pos].
    apply quiet_bind; [|intros _; quiet_auto].
    destruct (pos <? len (Subscribers req)); [|apply quiet_ret].
    apply quiet_bind; [quiet_auto | intros _].
    apply quiet_bind; [quiet_auto | intros subs].
    apply quiet_go; [reflexivity | apply quiet_stray_pushBulk].
Qed.

(** X13. Whatever [Process] puts on the hand-off channel while it handles
    a request, in any of its goroutines, is a follow-up of that request:
    it has the id, the service and the sender address of the request and
    exactly one subscriber, and it is either an unsubscribe request or a
    push request with a pre-resolved pair, which [Process] will take on
    the direct path. *)
Theorem Process_sends_only_follow_ups p req w :
  Forall (fun r =>
            ID r = ID req
            /\ Service r = Service req
            /\ RequestSenderAddr r = RequestSenderAddr req
            /\ (exists s, Subscribers r = [s])
            /\ ((Action r = ACTION_PUSH /\ direct r = true)
                \/ Action r = ACTION_UNSUBSCRIBE))
         (sent (trace_of (Process p req) w)).
Proof.
  assert (Q : quiet (stray_send req) (Process p req)).
  { unfold Process. apply quiet_defer; [|unfold Finish; quiet_auto].
    destruct (Subscribers req) as [|a [|b l]],
      (req_PushServiceProvider req), (req_DeliveryPoint req);
      first [apply quiet_stray_attempt | apply quiet_stray_fanout]. }
  eapply Forall_impl; [|apply sent_follow_up, Q].
  intros r. apply follows_up_spec.
Qed.

End DispatcherOutcomes.

(** ** The further properties at concrete inputs *)

Lemma retryable_failure_and_budget_witness :
  responses (trace_of (pushToDeliveryPoint
                         (sample_processor [] None ("", Some (RetryError 10)))
                         (sample_request ["alice"]) "alice" sample_psp dpA) 0)
  = [retry_notice "alice" sample_psp dpA]
  /\ sent (trace_of (pushToDeliveryPoint
                       (sample_processor [] None ("", Some (RetryError 10)))
                       (sample_request ["alice"]) "alice" sample_psp dpA) 0)
     = [retry_of (sample_request ["alice"]) "alice" sample_psp dpA 0].
Proof.
  split; [|reflexivity].
  exact (proj1 (retryable_failure_and_budget
                  (sample_processor [] None ("", Some (RetryError 10)))
                  (sample_request ["alice"]) "alice" sample_psp dpA 0 ""
                  (RetryError 10) 10 0 eq_refl eq_refl)).
Defined.

Lemma retry_chain_is_exponential_witness :
  nrRetries (sample_request ["alice"]) = 0
  /\ map fst (retry_chain [0; 0; 0; 0] default_processor
                (sample_request ["alice"]) "alice" sample_psp dpA 0)
     = [3000000000; 6000000000; 12000000000].
Proof.
  split; [reflexivity|].
  assert (H2 : 0 <= max_nr_retry default_processor <= 32) by (cbn; lia).
  assert (H3 : (Z.to_nat (max_nr_retry default_processor)
                <= List.length [0; 0; 0; 0])%nat) by (cbn; lia).
  assert (H4 : Forall (fun ra => ra <= 0) [0; 0; 0; 0])
    by (repeat constructor; lia).
  exact (retry_chain_is_exponential [0; 0; 0; 0] default_processor
           (sample_request ["alice"]) "alice" sample_psp dpA 0
           eq_refl H2 H3 H4).
Defined.

Lemma Process_direct_path_witness :
  Subscribers retried_request = ["alice"]
  /\ attempts (trace_of (Process (sample_processor [] None ("id-1", None))
                           retried_request) 0)
     = [(sample_psp, dpA)]
  /\ processed (trace_of (Process (sample_processor [] None ("id-1", None))
                            retried_request) 0)
     = [].
Proof.
  split; [reflexivity|].
  pose proof (Process_direct_path (sample_processor [] None ("id-1", None))
                retried_request "alice" sample_psp dpA 0
                eq_refl eq_refl eq_refl) as (_ & H1 & _ & H3 & _).
  split; [exact H1 | exact H3].
Defined.

Lemma retry_request_takes_direct_path_witness :
  In (EvSend retried_request)
     (trace_of (retryRequest default_processor (sample_request ["alice"]) 0
                             "alice" sample_psp dpA) 0)
  /\ attempts (trace_of (Process default_processor retried_request) 5)
     = [(sample_psp, dpA)].
Proof.
  assert (H : In (EvSend retried_request)
                 (trace_of (retryRequest default_processor
                              (sample_request ["alice"]) 0
                              "alice" sample_psp dpA) 0))
    by (right; left; reflexivity).
  split; [exact H|].
  exact (proj1 (retry_request_takes_direct_path default_processor
                  (sample_request ["alice"]) 0 "alice" sample_psp dpA 0
                  retried_request 5 H)).
Defined.

Lemma push_attempts_all_distinct_targets_witness :
  NoDup (map pair_name distinct_pairs)
  /\ attempts (trace_of (push (sample_processor distinct_pairs None
                                                ("id-1", None))
                              (sample_request ["alice"]) "alice" false) 0)
     = map pair_tuple distinct_pairs.
Proof.
  assert (ND : NoDup (map pair_name distinct_pairs)).
  { repeat constructor; cbn; intuition discriminate. }
  split; [exact ND|].
  exact (proj1 (proj2 (push_attempts_all_distinct_targets
                         (sample_processor distinct_pairs None ("id-1", None))
                         (sample_request ["alice"]) "alice" false 0
                         distinct_pairs None 0 eq_refl)) ND).
Defined.

Lemma storage_error_does_not_stop_delivery_witness :
  hd_error (responses
              (trace_of (push (sample_processor sample_pairs
                                 (Some (errorString "db down"))
                                 ("id-1", None))
                              (sample_request ["alice"]) "alice" false) 0))
  = Some (errorString "db down")
  /\ hd_error (attempts
                 (trace_of (push (sample_processor sample_pairs
                                    (Some (errorString "db down"))
                                    ("id-1", None))
                                 (sample_request ["alice"]) "alice" false) 0))
     = Some (sample_psp, dpA).
Proof.
  exact (storage_error_does_not_stop_delivery
           (sample_processor sample_pairs (Some (errorString "db down"))
                             ("id-1", None))
           (sample_request ["alice"]) "alice" false 0
           (mkPair sample_psp dpA) (tl sample_pairs)
           (errorString "db down") 0 eq_refl).
Defined.

Lemma push_all_succeed_is_silent_witness :
  responses (trace_of (push (sample_processor sample_pairs None
                                              ("id-1", None))
                            (sample_request ["alice"]) "alice" true) 0)
  = []
  /\ count is_recycle
       (trace_of (push (sample_processor sample_pairs None ("id-1", None))
                       (sample_request ["alice"]) "alice" true) 0)
     = 3%nat.
Proof.
  split; [|reflexivity].
  refine (proj1 (push_all_succeed_is_silent
                   (sample_processor sample_pairs None ("id-1", None))
                   (sample_request ["alice"]) "alice" true 0
                   sample_pairs 0 eq_refl _ _)).
  - discriminate.
  - reflexivity.
Defined.

Lemma push_no_device_witness :
  responses (trace_of (push (sample_processor [] None ("id-1", None))
                            (sample_request ["alice"]) "alice" true) 0)
  = [errorString "Subscriber=alice NoDevice"].
Proof.
  exact (proj1 (push_no_device (sample_processor [] None ("id-1", None))
                  (sample_request ["alice"]) "alice" true 0 0 eq_refl)).
Defined.

Lemma Process_one_goroutine_per_subscriber_witness :
  len (Subscribers (sample_request five_subscribers))
    <= max_nr_gorountines (small_processor 8)
  /\ workers (trace_of (Process (small_processor 8)
                          (sample_request five_subscribers)) 0)
     = [["a"]; ["b"]; ["c"]; ["d"]; ["e"]].
Proof.
  assert (H : len (Subscribers (sample_request five_subscribers))
              <= max_nr_gorountines (small_processor 8))
    by (cbn; lia).
  split; [exact H|].
  exact (proj1 (Process_one_goroutine_per_subscriber (small_processor 8)
                  (sample_request five_subscribers) 0 eq_refl H)).
Defined.

Lemma Process_workers_cover_subscribers_witness :
  0 < max_nr_gorountines (small_processor 2)
  /\ List.concat (workers (trace_of (Process (small_processor 2)
                                       (sample_request five_subscribers)) 0))
     = five_subscribers
  /\ len (workers (trace_of (Process (small_processor 2)
                               (sample_request five_subscribers)) 0))
     <= 2 + 1.
Proof.
  assert (H : 0 < max_nr_gorountines (small_processor 2)) by (cbn; lia).
  split; [exact H|].
  pose proof (Process_workers_cover_subscribers (small_processor 2)
                (sample_request five_subscribers) 0 H eq_refl)
    as (H1 & _ & H3 & _).
  split; [exact H1 | exact H3].
Defined.

Lemma Process_no_subscribers_witness :
  Process default_processor (sample_request []) 0
  = (Ok tt, [EvWgWait; EvFinish], 0).
Proof.
  exact (Process_no_subscribers default_processor (sample_request []) 0
           eq_refl).
Defined.
